(** * ImageNet data-loading glue: sharding, augmentation, batching, evaluation

    A shallow embedding of [ResNet-Horovod/imagenet_utils.py] and of
    [ImageNet/benchmark-pil-resize.py].

    Conventions.
    - Python integers are [Z]; [//] is [Z.div] (both round towards minus
      infinity) and raises [ZeroDivisionError] on a zero divisor.
    - Python floats are idealised as exact rationals ([Q]);
      [int(np.sqrt(x) + 0.5)] is computed exactly with [Z.sqrt].
    - A decoded image is a list of rows of three-channel pixels.
    - A random generator is a tape of raw draws from [0, 1); every random
      outcome of the program is the run on some tape.
    - Exceptions are values of [exn]; code that may raise returns [result]. *)

From Stdlib Require Import String ZArith QArith Qround List Bool Lia Lqa Permutation.
Import ListNotations.
Local Open Scope Z_scope.

(** ** Exceptions and results *)

Inductive exn : Type :=
| AssertionError
| TypeError
| ZeroDivisionError
| ValueError
| AttributeError
| cv2_error.

Inductive result (A : Type) : Type :=
| Ok (a : A)
| Raise (e : exn).
Arguments Ok {A} a.
Arguments Raise {A} e.

Definition rbind {A B} (r : result A) (k : A -> result B) : result B :=
  match r with
  | Ok a => k a
  | Raise e => Raise e
  end.

(** ** Images *)

Record pixel : Type := BGR { chan_b : Z; chan_g : Z; chan_r : Z }.

Definition image : Type := list (list pixel).

(** [img.shape[:2]] *)
Definition height (img : image) : Z := Z.of_nat (length img).
Definition width (img : image) : Z :=
  match img with
  | [] => 0
  | row :: _ => Z.of_nat (length row)
  end.

(** [img] is a dense array of shape [(h, w, 3)]. *)
Definition has_shape (img : image) (h w : Z) : Prop :=
  height img = h /\ Forall (fun row => Z.of_nat (length row) = w) img.

(** ** Python slicing *)

Definition py_clip (len i : Z) : Z :=
  if i <? 0 then Z.max 0 (i + len) else Z.min i len.

(** [l[start:stop]] *)
Definition py_slice {A} (l : list A) (start stop : Z) : list A :=
  let len := Z.of_nat (length l) in
  let a := py_clip len start in
  let b := py_clip len stop in
  firstn (Z.to_nat (b - a)) (skipn (Z.to_nat a) l).

(** [img[y1:y2, x1:x2]] *)
Definition crop (img : image) (y1 y2 x1 x2 : Z) : image :=
  map (fun row => py_slice row x1 x2) (py_slice img y1 y2).

(** ** Random generator: a tape of raw draws *)

Definition Rng : Type := list Q.

(** The next raw draw; an exhausted tape reads as 0. *)
Definition raw (g : Rng) : Q * Rng :=
  match g with
  | [] => (0%Q, [])
  | u :: g' => (u, g')
  end.

(** [rng.uniform(low, high)]: [low + (high - low) * random_sample()] *)
Definition rng_uniform (low high : Q) (g : Rng) : Q * Rng :=
  let (u, g') := raw g in ((low + (high - low) * u)%Q, g').

(** [rng.randint(low, high)]: an integer of [low, high); [ValueError] when
    the range is empty. *)
Definition rng_randint (low high : Z) (g : Rng) : result (Z * Rng) :=
  if high <=? low then Raise ValueError
  else let (u, g') := raw g in
       Ok (low + Qfloor (u * inject_Z (high - low)), g').

(** Every raw draw of the tape lies in [0, 1). *)
Definition tape_ok (g : Rng) : Prop :=
  Forall (fun u => (0 <= u)%Q /\ (u < 1)%Q) g.

(** ** Float helpers *)

(** [int(x)] for a float [x]: truncation towards zero. *)
Definition py_int (x : Q) : Z := Qnum x ÷ Z.pos (Qden x).

(** [int(np.sqrt(x) + 0.5)]: [np.sqrt] of a negative number is nan, and
    [int(nan)] raises [ValueError]. For [x >= 0] the value is the greatest
    [n] with [n - 1/2 <= sqrt x], that is [(1 + isqrt (floor (4 x))) / 2]. *)
Definition round_sqrt (x : Q) : result Z :=
  if Qle_bool 0 x then Ok ((1 + Z.sqrt (Qfloor (4 * x))) / 2)
  else Raise ValueError.

(** Float division; Python raises on a zero divisor. *)
Definition py_fdiv (x y : Q) : result Q :=
  if Qeq_bool y 0 then Raise ZeroDivisionError else Ok (x / y)%Q.

Definition Qltb (x y : Q) : bool := (Qnum x * QDen y <? Qnum y * QDen x)%Z.

(** ** Error-and-generator monad

    Augmentors read their generator and may raise. *)

Definition Aug (A : Type) : Type := Rng -> result (A * Rng).

Definition aret {A} (a : A) : Aug A := fun g => Ok (a, g).

Definition abind {A B} (m : Aug A) (k : A -> Aug B) : Aug B :=
  fun g => match m g with
           | Ok (a, g') => k a g'
           | Raise e => Raise e
           end.

Definition lift_result {A} (r : result A) : Aug A :=
  fun g => match r with
           | Ok a => Ok (a, g)
           | Raise e => Raise e
           end.

Definition lift_draw {A} (d : Rng -> A * Rng) : Aug A :=
  fun g => Ok (d g).

Declare Scope aug_scope.
Delimit Scope aug_scope with aug.
Notation "x <- m ;; k" := (abind m (fun x => k))
  (at level 61, m at next level, right associativity) : aug_scope.
Notation "' pat <- m ;; k" := (abind m (fun x => match x with pat => k end))
  (at level 61, pat pattern, m at next level, right associativity) : aug_scope.

(** ** Augmentor configuration *)

(** [GoogleNetResize.__init__] *)
Record GoogleNetResize : Type := mkGoogleNetResize {
  crop_area_fraction : Q;
  aspect_ratio_low : Q;
  aspect_ratio_high : Q;
  target_shape : Z
}.

(** [GoogleNetResize()] with the default arguments. *)
Definition GoogleNetResize_default : GoogleNetResize :=
  mkGoogleNetResize (8 # 100) (75 # 100) (1333 # 1000) 224.

(** The colour transforms of [fbresnet_augmentor]; their pixel arithmetic
    is external. *)
Inductive ColorAug : Type :=
| BrightnessScale (lo hi : Q) (clip : bool)
| Contrast (lo hi : Q) (clip : bool)
| Saturation (alpha : Q) (rgb : bool)
| Lighting (std : Q).

Inductive Augmentor : Type :=
| AugGoogleNetResize (self : GoogleNetResize)
| AugRandomOrder (augs : list ColorAug)
| AugLighting (std : Q)
| AugFlip (prob : Q)
| AugResizeShortestEdge (size : Z)
| AugCenterCrop (crop_shape : Z * Z).

(** [small_augmentor()] *)
Definition small_augmentor : list Augmentor :=
  [ AugGoogleNetResize GoogleNetResize_default;
    AugLighting (1 # 10);
    AugFlip (1 # 2) ].

(** [fbresnet_augmentor(isTrain)] *)
Definition fbresnet_augmentor (isTrain : bool) : list Augmentor :=
  if isTrain then
    [ AugGoogleNetResize GoogleNetResize_default;
      AugRandomOrder
        [ BrightnessScale (6 # 10) (14 # 10) false;
          Contrast (6 # 10) (14 # 10) false;
          Saturation (4 # 10) false;
          Lighting (1 # 10) ];
      AugFlip (1 # 2) ]
  else
    [ AugResizeShortestEdge 256;
      AugCenterCrop (224, 224) ].

(** [cv2.flip(img, 1)]: mirror every row. *)
Definition cv2_flip_horiz (img : image) : image := map (@rev pixel) img.

(** [np.arange(n)] as integers. *)
Definition zrange (n : Z) : list Z := map Z.of_nat (seq 0 (Z.to_nat n)).

Section Augmentors.

(** The interpolation kernel of [cv2.resize]: [interp src dh dw i j] is the
    pixel at row [i], column [j] of [src] resampled to [dh] rows and [dw]
    columns. *)
Variable interp : image -> Z -> Z -> Z -> Z -> pixel.

(** The colour transforms, applied by the augmentation library. *)
Variable color_augment : list ColorAug -> image -> Aug image.

(** [cv2.resize(src, (dw, dh), interpolation=...)]: an empty source or a
    non-positive target size is refused. *)
Definition cv2_resize (src : image) (dsize : Z * Z) : result image :=
  let (dw, dh) := dsize in
  if (height src <=? 0) || (width src <=? 0) then Raise cv2_error
  else if (dw <=? 0) || (dh <=? 0) then Raise cv2_error
  else Ok (map (fun i => map (fun j => interp src dh dw i j) (zrange dw))
               (zrange dh)).

(** Modelled from the spec: [imgaug.ResizeShortestEdge(size).augment], the
    library's resize-shortest-edge-to-target transform, which keeps the
    aspect ratio. *)
Definition ResizeShortestEdge_augment (size : Z) (img : image) : result image :=
  let h := height img in
  let w := width img in
  rbind (py_fdiv (inject_Z size * 1) (inject_Z (Z.min h w))) (fun scale =>
  let '(newh, neww) :=
    if h <? w then (size, py_int (scale * inject_Z w + (1 # 2)))
    else (py_int (scale * inject_Z h + (1 # 2)), size) in
  cv2_resize img (neww, newh)).

(** Modelled from the spec: [imgaug.CenterCrop(crop_shape).augment], the
    library's centre crop. *)
Definition CenterCrop_augment (crop_shape : Z * Z) (img : image) : image :=
  let h0 := py_int (inject_Z (height img - fst crop_shape) * (1 # 2)) in
  let w0 := py_int (inject_Z (width img - snd crop_shape) * (1 # 2)) in
  crop img h0 (h0 + fst crop_shape) w0 (w0 + snd crop_shape).

(** One iteration of the loop of [GoogleNetResize._augment]: [Some out] when
    the iteration returns [out], [None] when the loop goes on. *)
Definition GoogleNetResize_trial (self : GoogleNetResize) (img : image)
  : Aug (option image) :=
  (let h := height img in
   let w := width img in
   let area := h * w in
   f <- lift_draw (rng_uniform (crop_area_fraction self) 1) ;;
   let targetArea := (f * inject_Z area)%Q in
   aspectR <- lift_draw (rng_uniform (aspect_ratio_low self)
                                     (aspect_ratio_high self)) ;;
   ww <- lift_result (round_sqrt (targetArea * aspectR)) ;;
   q <- lift_result (py_fdiv targetArea aspectR) ;;
   hh <- lift_result (round_sqrt q) ;;
   c <- lift_draw (rng_uniform 0 1) ;;
   let '(ww, hh) := if Qltb c (1 # 2) then (hh, ww) else (ww, hh) in
   if (hh <=? h) && (ww <=? w) then
     x1 <- (if w =? ww then aret 0 else rng_randint 0 (w - ww)) ;;
     y1 <- (if h =? hh then aret 0 else rng_randint 0 (h - hh)) ;;
     out <- lift_result
              (cv2_resize (crop img y1 (y1 + hh) x1 (x1 + ww))
                          (target_shape self, target_shape self)) ;;
     aret (Some out)
   else aret None)%aug.

(** The two statements after the loop. *)
Definition GoogleNetResize_fallback (self : GoogleNetResize) (img : image)
  : Aug image :=
  (out <- lift_result (ResizeShortestEdge_augment (target_shape self) img) ;;
   aret (CenterCrop_augment (target_shape self, target_shape self) out))%aug.

(** [for _ in range(n)]: body, then the fallback. *)
Fixpoint GoogleNetResize_loop (n : nat) (self : GoogleNetResize) (img : image)
  : Aug image :=
  match n with
  | O => GoogleNetResize_fallback self img
  | S n' =>
      (r <- GoogleNetResize_trial self img ;;
       match r with
       | Some out => aret out
       | None => GoogleNetResize_loop n' self img
       end)%aug
  end.

(** [GoogleNetResize._augment(img, _)] *)
Definition GoogleNetResize_augment (self : GoogleNetResize) (img : image)
  : Aug image :=
  GoogleNetResize_loop 10 self img.

(** Modelled from the spec: [imgaug.Flip(horiz=True).augment], which flips
    the image left-right when its draw falls below [prob] (one half by
    default). *)
Definition Flip_augment (prob : Q) (img : image) : Aug image :=
  (u <- lift_draw (rng_uniform 0 1) ;;
   aret (if Qltb u prob then cv2_flip_horiz img else img))%aug.

(** [augmentor.augment(img)] *)
Definition augment (a : Augmentor) (img : image) : Aug image :=
  match a with
  | AugGoogleNetResize self => GoogleNetResize_augment self img
  | AugRandomOrder augs => color_augment augs img
  | AugLighting std => color_augment [Lighting std] img
  | AugFlip prob => Flip_augment prob img
  | AugResizeShortestEdge size =>
      lift_result (ResizeShortestEdge_augment size img)
  | AugCenterCrop crop_shape => aret (CenterCrop_augment crop_shape img)
  end.

(** [imgaug.AugmentorList(augmentors).augment(img)]: every augmentor in
    turn. *)
Fixpoint AugmentorList_augment (augs : list Augmentor) (img : image)
  : Aug image :=
  match augs with
  | [] => aret img
  | a :: rest =>
      (img' <- augment a img ;; AugmentorList_augment rest img')%aug
  end.

End Augmentors.

(** ** Dataflows *)

(** A sample of the index: [(fname, cls)]. *)
Definition datapoint : Type := (string * Z)%type.

(** A batch: the stacked images and the stacked labels. *)
Definition batch : Type := (list image * list Z)%type.

(** Sources of samples. *)
Inductive FileFlow : Type :=
| ILSVRC12Files (datadir name : string) (shuffle : bool)
| DataFromList (lst : list datapoint) (shuffle : bool).

(** [MultiThreadMapData(ds, nr_thread, map_func, buffer_size, strict)] *)
Record MapStage : Type := MultiThreadMapData {
  map_ds : FileFlow;
  nr_thread : Z;
  map_func : datapoint -> Aug (image * Z);
  buffer_size : Z;
  strict : bool
}.

(** [BatchData(ds, batch_size, remainder)] *)
Record BatchStage : Type := BatchData {
  batch_ds : MapStage;
  batch_size : Z;
  remainder : bool
}.

(** What a call does besides returning: the dataflow objects it constructs
    and the lines it logs, in order. *)
Inductive event : Type :=
| Construct (cls : string)
| LogInfo (fmt : string) (args : list Z).

Definition Eff (A : Type) : Type := (list event * result A)%type.

Definition eret {A} (a : A) : Eff A := ([], Ok a).

Definition ebind {A B} (m : Eff A) (k : A -> Eff B) : Eff B :=
  match m with
  | (log, Ok a) => let (log', r) := k a in (log ++ log', r)
  | (log, Raise e) => (log, Raise e)
  end.

Definition emit (ev : event) : Eff unit := ([ev], Ok tt).

Definition eraise {A} (e : exn) : Eff A := ([], Raise e).

(** [assert b] *)
Definition py_assert (b : bool) : Eff unit :=
  if b then eret tt else eraise AssertionError.

Declare Scope eff_scope.
Delimit Scope eff_scope with eff.
Notation "x <- m ;; k" := (ebind m (fun x => k))
  (at level 61, m at next level, right associativity) : eff_scope.
Notation "m ;;; k" := (ebind m (fun _ => k))
  (at level 61, right associativity) : eff_scope.

(** The [augmentors] argument: a list, or some other Python value. *)
Inductive py_augmentors : Type :=
| PyList (augs : list Augmentor)
| PyOther.

(** [split_size * split_index, min(split_size * (split_index + 1), N)] for
    [split_size = N // num_splits] (lines 124-126). *)
Definition shard_range (N num_splits split_index : Z) : Z * Z :=
  let split_size := N / num_splits in
  let start := split_size * split_index in
  let end_ := split_size * (split_index + 1) in
  let end_ := Z.min end_ N in
  (start, end_).

(** Modelled from the spec: the batching stage of the dataflow library,
    which collects samples into groups of [batch_size] and keeps a final
    shorter group when [remainder] is set. [holder] is the group being
    filled. *)
Fixpoint BatchData_loop (batch_size : Z) (remainder : bool)
  (holder : list (image * Z)) (ds : list (image * Z)) : list batch :=
  match ds with
  | [] =>
      if remainder && (0 <? Z.of_nat (length holder))
      then [(map fst holder, map snd holder)] else []
  | data :: ds' =>
      let holder := holder ++ [data] in
      if Z.of_nat (length holder) =? batch_size
      then (map fst holder, map snd holder)
             :: BatchData_loop batch_size remainder [] ds'
      else BatchData_loop batch_size remainder holder ds'
  end.

Definition BatchData_get_data (batch_size : Z) (remainder : bool)
  (ds : list (image * Z)) : list batch :=
  BatchData_loop batch_size remainder [] ds.

(** The number of samples of a batch. *)
Definition batch_len (b : batch) : Z := Z.of_nat (length (snd b)).

Section Dataset.

Variable interp : image -> Z -> Z -> Z -> Z -> pixel.
Variable color_augment : list ColorAug -> image -> Aug image.

(** The index of a dataset directory: [ILSVRC12Files(datadir, name)] read
    without shuffling. *)
Variable dataset_index : string -> string -> list datapoint.

(** [cv2.imread(fname, cv2.IMREAD_COLOR)]: [None] for an unreadable file. *)
Variable imread : string -> option image.

(** [multiprocessing.cpu_count()] *)
Variable cpu_count : Z.

(** [list(ds.get_data())] of a source that does not shuffle. *)
Definition get_data (ds : FileFlow) : list datapoint :=
  match ds with
  | ILSVRC12Files datadir name _ => dataset_index datadir name
  | DataFromList lst _ => lst
  end.

(** [ds.size()] *)
Definition size (ds : FileFlow) : Z := Z.of_nat (length (get_data ds)).

(** [mapf] of [get_val_dataflow], closed over the augmentor list. *)
Definition mapf (augmentors : list Augmentor) (dp : datapoint)
  : Aug (image * Z) :=
  (let '(fname, cls) := dp in
   im <- lift_result (match imread fname with
                      | Some im => Ok im
                      | None => Raise AttributeError
                      end) ;;
   im <- AugmentorList_augment interp color_augment augmentors im ;;
   aret (im, cls))%aug.

(** [get_val_dataflow(datadir, batch_size, augmentors, parallel,
    num_splits, split_index)] *)
Definition get_val_dataflow (datadir : option string) (batch_size : Z)
  (augmentors : py_augmentors) (parallel : option Z)
  (num_splits split_index : option Z) : Eff BatchStage :=
  match datadir with
  | None => eraise AssertionError
  | Some datadir =>
  match augmentors with
  | PyOther => eraise AssertionError
  | PyList augmentors =>
  (let parallel :=
     match parallel with
     | None => Z.min 40 cpu_count
     | Some p => p
     end in
   ds <- match num_splits with
         | None =>
             emit (Construct "ILSVRC12Files") ;;;
             eret (ILSVRC12Files datadir "val" false)
         | Some num_splits =>
             match split_index with
             | None => (* [None < num_splits] *) eraise TypeError
             | Some split_index =>
                 py_assert (split_index <? num_splits) ;;;
                 emit (Construct "ILSVRC12Files") ;;;
                 let files := get_data (ILSVRC12Files datadir "val" false) in
                 let N := Z.of_nat (length files) in
                 emit (LogInfo "Number of validation data = {}" [N]) ;;;
                 (if num_splits =? 0 then eraise ZeroDivisionError
                  else eret tt) ;;;
                 let '(start, end_) := shard_range N num_splits split_index in
                 emit (LogInfo "Local validation split = {} - {}"
                               [start; end_]) ;;;
                 let files := py_slice files start end_ in
                 emit (Construct "DataFromList") ;;;
                 eret (DataFromList files false)
             end
         end ;;
   emit (Construct "AugmentorList") ;;;
   (* the constructor of the map stage asserts a positive buffer size and a
      positive thread count *)
   py_assert (0 <? Z.min 2000 (size ds)) ;;;
   py_assert (0 <? parallel) ;;;
   emit (Construct "MultiThreadMapData") ;;;
   let ds := MultiThreadMapData ds parallel (mapf augmentors)
                                (Z.min 2000 (size ds)) true in
   (* the constructor of the batching stage asserts a positive batch size *)
   py_assert (0 <? batch_size) ;;;
   emit (Construct "BatchData") ;;;
   eret (BatchData ds batch_size true))%eff
  end
  end.

(** [MapData(ds, map_func)]: the samples of [ds] mapped one after the
    other. *)
Fixpoint map_in_order (f : datapoint -> Aug (image * Z))
  (ds : list datapoint) : Aug (list (image * Z)) :=
  match ds with
  | [] => aret []
  | dp :: ds' =>
      (x <- f dp ;; xs <- map_in_order f ds' ;; aret (x :: xs))%aug
  end.

(** Modelled from the spec: the parallel map stage of the dataflow library.
    In strict mode it hands the mapped samples on in input order; otherwise
    workers may complete out of order. *)
Definition MultiThreadMapData_yields (st : MapStage) (g : Rng)
  (out : list (image * Z)) : Prop :=
  exists l g', map_in_order (map_func st) (get_data (map_ds st)) g = Ok (l, g')
    /\ if strict st then out = l else Permutation l out.

(** What the batching stage yields on top of the map stage. *)
Definition BatchData_yields (ds : BatchStage) (g : Rng) (out : list batch)
  : Prop :=
  exists l, MultiThreadMapData_yields (batch_ds ds) g l
    /\ out = BatchData_get_data (batch_size ds) (remainder ds) l.

(** The parallel map stage as the library runs it: its worker threads
    finish in any order. In strict mode one pass hands on every mapped
    sample exactly once, so it is some permutation of the samples mapped in
    order; without strict mode samples of a pass may be missing or
    repeated. *)
Definition MultiThreadMapData_completes (st : MapStage) (g : Rng)
  (out : list (image * Z)) : Prop :=
  exists l g', map_in_order (map_func st) (get_data (map_ds st)) g = Ok (l, g')
    /\ if strict st then Permutation l out else incl out l.


End Dataset.

(** ** Evaluation *)

(** Modelled from the spec: the ratio counter of the utility library, with
    its running count and total; [ratio] is count over total, and 0 while
    nothing has been fed. *)
Record RatioCounter : Type := mkRatioCounter { tot : Z; cnt : Z }.

Definition RatioCounter_new : RatioCounter := mkRatioCounter 0 0.

Definition feed (c : RatioCounter) (count total : Z) : RatioCounter :=
  mkRatioCounter (tot c + total) (cnt c + count).

Definition ratio (c : RatioCounter) : Q :=
  if tot c =? 0 then 0%Q else (inject_Z (cnt c) * 1 / inject_Z (tot c))%Q.

(** [v.sum()] of a vector of 0/1 indicators. *)
Definition np_sum (v : list bool) : Z :=
  fold_right (fun (b : bool) acc => (if b then 1 else 0) + acc) 0 v.

(** [v.shape[0]] *)
Definition shape0 (v : list bool) : Z := Z.of_nat (length v).

(** The loop of [eval_on_ILSVRC12] over the predictor's per-batch outputs
    [(top1, top5)]. *)
Definition eval_loop (results : list (list bool * list bool))
  : RatioCounter * RatioCounter :=
  fold_left
    (fun (acc : RatioCounter * RatioCounter) (r : list bool * list bool) =>
       let '(acc1, acc5) := acc in
       let '(top1, top5) := r in
       let batch_size := shape0 top1 in
       (feed acc1 (np_sum top1) batch_size, feed acc5 (np_sum top5) batch_size))
    results (RatioCounter_new, RatioCounter_new).

(** [eval_on_ILSVRC12]: the two printed lines, as format and value. *)
Definition eval_on_ILSVRC12 (results : list (list bool * list bool))
  : list (string * Q) :=
  let '(acc1, acc5) := eval_loop results in
  [ ("Top1 Error: {}"%string, ratio acc1);
    ("Top5 Error: {}"%string, ratio acc5) ].

(** ** The resize benchmark *)

(** A PIL image: its [size] is [(width, height)]. *)
Record PILImage : Type := mkPIL { pil_size : Z * Z; pil_data : image }.

(** What the script does to the world. *)
Inductive bench_op : Type :=
| OpFromArray (shape : Z * Z)
| OpResize (from to : Z * Z).

Record bench_state : Type := mkBench {
  clock : list Q;
  stdout : list Q;
  ops : list bench_op
}.

(** [time.time()]: the next reading of the wall clock. *)
Definition time_time (s : bench_state) : Q * bench_state :=
  match clock s with
  | [] => (0%Q, s)
  | t :: later => (t, mkBench later (stdout s) (ops s))
  end.

Definition print (v : Q) (s : bench_state) : bench_state :=
  mkBench (clock s) (stdout s ++ [v]) (ops s).

Definition record_op (op : bench_op) (s : bench_state) : bench_state :=
  mkBench (clock s) (stdout s) (ops s ++ [op]).

(** One [astype('uint8')] channel of [np.random.rand(...) * 255]. *)
Definition rand_uint8 (g : Rng) : Z * Rng :=
  let (u, g') := raw g in (py_int (u * 255) mod 256, g').

Definition rand_pixel (g : Rng) : pixel * Rng :=
  let (c0, g) := rand_uint8 g in
  let (c1, g) := rand_uint8 g in
  let (c2, g) := rand_uint8 g in
  (BGR c0 c1 c2, g).

Fixpoint rand_row (w : nat) (g : Rng) : list pixel * Rng :=
  match w with
  | O => ([], g)
  | S w' => let (p, g) := rand_pixel g in
            let (row, g) := rand_row w' g in
            (p :: row, g)
  end.

(** [(np.random.rand(h, w, 3) * 255).astype('uint8')] *)
Fixpoint rand_image (h w : nat) (g : Rng) : image * Rng :=
  match h with
  | O => ([], g)
  | S h' => let (row, g) := rand_row w g in
            let (img, g) := rand_image h' w g in
            (row :: img, g)
  end.

(** [for k in range(n): body] *)
Fixpoint for_range {St : Type} (n : nat) (body : St -> St) (s : St) : St :=
  match n with
  | O => s
  | S n' => for_range n' body (body s)
  end.

Section Benchmark.

(** The resampling filter of [Image.resize]. *)
Variable pil_interp : image -> Z -> Z -> Z -> Z -> pixel.

(** [Image.fromarray(a)] *)
Definition Image_fromarray (a : image) : PILImage :=
  mkPIL (width a, height a) a.

(** [img.resize((w, h))] *)
Definition Image_resize (img : PILImage) (size : Z * Z) : PILImage :=
  let (w, h) := size in
  mkPIL size
        (map (fun i => map (fun j => pil_interp (pil_data img) h w i j)
                           (zrange w))
             (zrange h)).

(** The body of the timed loop (lines 20-21). *)
Definition benchmark_body (img_np : image) (s : bench_state) : bench_state :=
  let img := Image_fromarray img_np in
  let s := record_op (OpFromArray (height img_np, width img_np)) s in
  let out := Image_resize img (384, 384) in
  record_op (OpResize (pil_size img) (pil_size out)) s.

(** The script, run with generator [g] and with the wall clock giving the
    readings [readings]. *)
Definition benchmark (g : Rng) (readings : list Q) : bench_state :=
  let (img_np, _) := rand_image 256 256 g in
  let s := mkBench readings [] [] in
  let (start, s) := time_time s in
  let s := for_range 1000 (benchmark_body img_np) s in
  let (now, s) := time_time s in
  print (now - start)%Q s.

End Benchmark.

(** ** Declarative reading of the crop search

    The trials of [GoogleNetResize._augment] as the spec words them: the
    draws of each trial give a candidate size; the first candidate that fits
    is cropped at a drawn offset and resized; without one the image is
    resized by its shortest edge and centre-cropped. *)

Record Trial : Type := mkTrial {
  trial_fraction : Q;
  trial_aspect : Q;
  trial_swap : bool;
  trial_ww : Z;
  trial_hh : Z
}.

(** [floor (sqrt x + 1/2)] for [x >= 0]. *)
Definition nearest_sqrt (x : Q) : Z := (1 + Z.sqrt (Qfloor (4 * x))) / 2.

(** The candidate drawn from three raw draws [u1 u2 u3]. *)
Definition spec_trial (self : GoogleNetResize) (h w : Z) (u1 u2 u3 : Q)
  : Trial :=
  let fraction := (crop_area_fraction self
                   + (1 - crop_area_fraction self) * u1)%Q in
  let aspect := (aspect_ratio_low self
                 + (aspect_ratio_high self - aspect_ratio_low self) * u2)%Q in
  let target := (fraction * inject_Z (h * w))%Q in
  let cw := nearest_sqrt (target * aspect) in
  let ch := nearest_sqrt (target / aspect) in
  let swap := Qltb (0 + (1 - 0) * u3) (1 # 2) in
  mkTrial fraction aspect swap (if swap then ch else cw)
          (if swap then cw else ch).

(** The first [n] trials read off the tape, three draws each. *)
Fixpoint spec_trials (n : nat) (self : GoogleNetResize) (h w : Z) (g : Rng)
  : list Trial :=
  match n with
  | O => []
  | S n' =>
      let (u1, g) := raw g in
      let (u2, g) := raw g in
      let (u3, g) := raw g in
      spec_trial self h w u1 u2 u3 :: spec_trials n' self h w g
  end.

Definition fits (h w : Z) (t : Trial) : bool :=
  (trial_hh t <=? h) && (trial_ww t <=? w).

(** Index of the first element satisfying [p]. *)
Fixpoint find_index {A} (p : A -> bool) (l : list A) : option nat :=
  match l with
  | [] => None
  | x :: l' => if p x then Some O
               else option_map S (find_index p l')
  end.

(** An offset in [0, room]: 0 when there is no room, a drawn one otherwise. *)
Definition spec_offset (room : Z) : Aug Z :=
  if room =? 0 then aret 0 else rng_randint 0 room.

Section SpecAugment.

Variable interp : image -> Z -> Z -> Z -> Z -> pixel.

(** Crop candidate [t] at a drawn offset and resize it to the target. *)
Definition crop_and_resize (self : GoogleNetResize) (img : image) (t : Trial)
  : Aug image :=
  (x1 <- spec_offset (width img - trial_ww t) ;;
   y1 <- spec_offset (height img - trial_hh t) ;;
   out <- lift_result
            (cv2_resize interp
               (crop img y1 (y1 + trial_hh t) x1 (x1 + trial_ww t))
               (target_shape self, target_shape self)) ;;
   aret out)%aug.

(** The search over at most [n] trials. *)
Definition spec_search (n : nat) (self : GoogleNetResize) (img : image)
  : Aug image :=
  fun g =>
    let h := height img in
    let w := width img in
    let trials := spec_trials n self h w g in
    match find_index (fits h w) trials with
    | Some k =>
        crop_and_resize self img (nth k trials (mkTrial 0 0 false 0 0))
                        (skipn (3 * (k + 1)) g)
    | None =>
        GoogleNetResize_fallback interp self img (skipn (3 * n) g)
    end.

Definition spec_augment (self : GoogleNetResize) (img : image) : Aug image :=
  spec_search 10 self img.

End SpecAugment.

(** ** Shards as index ranges *)

(** Number of files of shard [split_index]. *)
Definition shard_size (N num_splits split_index : Z) : Z :=
  let (start, end_) := shard_range N num_splits split_index in end_ - start.

(** Index [x] of the file list belongs to shard [split_index]. *)
Definition in_shard (N num_splits split_index x : Z) : bool :=
  let (start, end_) := shard_range N num_splits split_index in
  (start <=? x) && (x <? end_).

(** [files[start:end]] of shard [split_index] (line 128). *)
Definition shard_files {A} (files : list A) (num_splits split_index : Z)
  : list A :=
  let (start, end_) :=
    shard_range (Z.of_nat (length files)) num_splits split_index in
  py_slice files start end_.

(** ** Totals over the predictor's outputs *)

Definition Zsum (l : list Z) : Z := fold_right Z.add 0 l.

(** Sum of the batch sizes [top1.shape[0]]. *)
Definition total_samples (results : list (list bool * list bool)) : Z :=
  Zsum (map (fun r => shape0 (fst r)) results).

(** Sum of the top-1 and of the top-5 wrong indicators. *)
Definition total_wrong1 (results : list (list bool * list bool)) : Z :=
  Zsum (map (fun r => np_sum (fst r)) results).
Definition total_wrong5 (results : list (list bool * list bool)) : Z :=
  Zsum (map (fun r => np_sum (snd r)) results).

(** ** Counting flips and resizes *)

(** Of the [2 n] equally spaced draws [k / (2 n)] of [0, 1), how many make
    [Flip] with probability [prob] flip. *)
Definition flips_on_grid (prob : Q) (n : nat) : nat :=
  length (filter (fun k => Qltb (Z.of_nat k # Pos.of_nat (2 * n)) prob)
                 (seq 0 (2 * n))).

Definition is_resize (op : bench_op) : bool :=
  match op with
  | OpResize _ _ => true
  | OpFromArray _ => false
  end.

(** ** Well-formed augmentor parameters *)

(** The area fraction is a fraction and the aspect bounds are an interval of
    positive ratios. *)
Definition params_ok (self : GoogleNetResize) : Prop :=
  (0 <= crop_area_fraction self)%Q /\ (crop_area_fraction self <= 1)%Q /\
  (0 < aspect_ratio_low self)%Q /\
  (aspect_ratio_low self <= aspect_ratio_high self)%Q.

(** No candidate side of an [h] by [w] image can round to zero. *)
Definition candidates_positive (self : GoogleNetResize) (h w : Z) : Prop :=
  (1 # 4 <= crop_area_fraction self * inject_Z (h * w)
            * aspect_ratio_low self)%Q /\
  (aspect_ratio_high self
   <= 4 * (crop_area_fraction self * inject_Z (h * w)))%Q.

(** ** Sample inputs *)

(** A kernel that paints every resampled pixel black. *)
Definition flat_interp : image -> Z -> Z -> Z -> Z -> pixel :=
  fun _ _ _ _ _ => BGR 0 0 0.

(** Colour transforms that leave the image alone. *)
Definition no_color : list ColorAug -> image -> Aug image :=
  fun _ img => aret img.

(** A one-pixel image and a one-row image of five pixels. *)
Definition tiny_image : image := [[BGR 10 20 30]].
Definition strip_image : image :=
  [[BGR 1 1 1; BGR 2 2 2; BGR 3 3 3; BGR 4 4 4; BGR 5 5 5]].

(** A tall image, 40 rows of 2 pixels. *)
Definition tall_image : image := repeat [BGR 7 7 7; BGR 9 9 9] 40.

Definition sample_tape : Rng := [1 # 10; 1 # 2; 3 # 4; 1 # 2; 1 # 2]%Q.

(** A tape whose trials all ask for nearly the whole area at the widest
    aspect ratio, unswapped. *)
Definition wide_tape : Rng :=
  concat (repeat [99 # 100; 99 # 100; 3 # 4]%Q 10).

(** A dataset index of three files and a reader that decodes each of them
    to [strip_image]. *)
Definition sample_index : string -> string -> list datapoint :=
  fun _ _ => [("a.jpg"%string, 7); ("b.jpg"%string, 3); ("c.jpg"%string, 7)].
Definition sample_imread : string -> option image :=
  fun _ => Some strip_image.

(** The dataflow of an unsharded call on the sample dataset. *)
Definition sample_dataflow : BatchStage :=
  BatchData
    (MultiThreadMapData (ILSVRC12Files "imagenet" "val" false) 8
       (mapf flat_interp no_color sample_imread (fbresnet_augmentor false))
       (Z.min 2000 3) true)
    2 true.

(** ** The model's input normalisation and error indicators *)

(** A pixel after the cast to float: its three channels, in the order the
    image stores them. *)
Definition fpixel : Type := (Q * Q * Q)%type.

(** [v[::-1]] of a three-element list. *)
Definition rev3 {A} (v : A * A * A) : A * A * A :=
  let '(a, b, c) := v in (c, b, a).

(** The channels of a stored pixel in reverse order. *)
Definition swap_channels (p : pixel) : pixel :=
  BGR (chan_r p) (chan_g p) (chan_b p).

(** [ImageNetModel.image_preprocess(image, bgr)] on one image of the batch:
    cast to float, scale by [1.0 / 255], subtract the per-channel mean and
    divide by the per-channel deviation, both reversed when [bgr]. *)
Definition image_preprocess (bgr : bool) (img : image) : list (list fpixel) :=
  let mean := (485 # 1000, 456 # 1000, 406 # 1000)%Q in
  let std := (229 # 1000, 224 # 1000, 225 # 1000)%Q in
  let mean := if bgr then rev3 mean else mean in
  let std := if bgr then rev3 std else std in
  let '(m0, m1, m2) := mean in
  let '(s0, s1, s2) := std in
  map (map (fun p =>
              (((inject_Z (chan_b p) * (1 / 255) - m0) / s0,
                (inject_Z (chan_g p) * (1 / 255) - m1) / s1,
                (inject_Z (chan_r p) * (1 / 255) - m2) / s2))%Q)) img.


Section ErrorIndicators.

(** [tf.nn.in_top_k] on one row of logits: whether the label is among the
    [k] best-scored classes. *)
Variable in_top_k : list Q -> Z -> Z -> bool.

(** [prediction_incorrect(logits, label, topk)] of
    [ImageNetModel.compute_loss_and_error], one indicator per sample. *)
Definition prediction_incorrect (logits : list (list Q)) (label : list Z)
  (topk : Z) : list bool :=
  map (fun rl : list Q * Z => negb (in_top_k (fst rl) (snd rl) topk))
      (combine logits label).

(** The tensors named [wrong-top1] and [wrong-top5]. *)
Definition wrong_top1_top5 (logits : list (list Q)) (label : list Z)
  : list bool * list bool :=
  (prediction_incorrect logits label 1, prediction_incorrect logits label 5).

End ErrorIndicators.

(** The label is in the top [k] when fewer than [k] classes score strictly
    higher. *)
Definition rank_in_top_k (row : list Q) (label k : Z) : bool :=
  let score := nth (Z.to_nat label) row 0%Q in
  Z.of_nat (length (filter (fun x => Qltb score x) row)) <? k.


(** A pixel whose channels are all below 255. *)
Definition below_255 (p : pixel) : Prop :=
  0 <= chan_b p <= 254 /\ 0 <= chan_g p <= 254 /\ 0 <= chan_r p <= 254.

(** ** More sample inputs *)

(** A reader that cannot decode ["b.jpg"]. *)
Definition broken_imread : string -> option image :=
  fun fname => if String.eqb fname "b.jpg" then None else Some strip_image.

(** The default crop parameters with a target of 2 by 2. *)
Definition GoogleNetResize_small : GoogleNetResize :=
  mkGoogleNetResize (8 # 100) (75 # 100) (1333 # 1000) 2.

(** A dataflow without augmentors over the sample dataset. *)
Definition plain_dataflow : BatchStage :=
  BatchData
    (MultiThreadMapData (ILSVRC12Files "imagenet" "val" false) 8
       (mapf flat_interp no_color sample_imread []) (Z.min 2000 3) true)
    2 true.

(** Two batches of logits over three classes, with their labels. *)
Definition sample_logits : list (list (list Q) * list Z) :=
  [ ([[1; 5; 3]; [4; 2; 0]]%Q, [0; 0]); ([[2; 2; 9]]%Q, [1]) ].

(** ** The fallback in the spec's words *)

(** An [h] by [w] image resized so that its shortest edge is [t]: the
    shorter side becomes [t] and the longer one the nearest integer to [t]
    times the ratio of the sides. *)
Definition shortest_edge_resized (t h w newh neww : Z) : Prop :=
  Z.min newh neww = t /\
  (h < w -> newh = t /\
            2 * t * w - h < 2 * neww * h /\ 2 * neww * h <= 2 * t * w + h) /\
  (w <= h -> neww = t /\
             2 * t * h - w < 2 * newh * w /\ 2 * newh * w <= 2 * t * h + w).

(** A window of [t] starting at [off] is centred in [len]: the margins
    before and after it differ by at most one. *)
Definition centred (t len off : Z) : Prop :=
  0 <= 2 * off /\ 2 * off <= len - t /\ len - t <= 2 * off + 1.

(** * Properties *)

(** ** Sharding *)

Lemma shard_range_eq N k i :
  0 <= N -> 0 < k -> 0 <= i < k ->
  shard_range N k i = ((N / k) * i, (N / k) * (i + 1)).
Proof.
  intros HN Hk Hi. unfold shard_range. f_equal.
  apply Z.min_l.
  assert (Hq : 0 <= N / k) by (apply Z.div_pos; lia).
  assert (Hm : k * (N / k) <= N) by (apply Z.mul_div_le; lia).
  nia.
Qed.

(** Every shard has exactly [N // num_splits] files. *)
Lemma shard_size_eq N k i :
  0 <= N -> 0 < k -> 0 <= i < k -> shard_size N k i = N / k.
Proof.
  intros HN Hk Hi. unfold shard_size.
  rewrite shard_range_eq by assumption. lia.
Qed.

(** Two different shards share no index. *)
Lemma shards_disjoint N k i j x :
  0 <= N -> 0 < k -> 0 <= i < k -> 0 <= j < k -> i <> j ->
  in_shard N k i x = true -> in_shard N k j x = false.
Proof.
  intros HN Hk Hi Hj Hij. unfold in_shard.
  rewrite !shard_range_eq by assumption.
  assert (Hq : 0 <= N / k) by (apply Z.div_pos; lia).
  intros H. apply andb_true_iff in H. destruct H as [H1 H2].
  apply Z.leb_le in H1. apply Z.ltb_lt in H2.
  apply andb_false_iff.
  destruct (Z_lt_ge_dec i j) as [Hlt | Hge].
  - left. apply Z.leb_gt. nia.
  - right. apply Z.ltb_ge. nia.
Qed.

(** The shards cover the first [(N // num_splits) * num_splits] indices and
    nothing else. *)
Lemma shards_cover_prefix N k x :
  0 <= N -> 0 < k ->
  (0 <= x < (N / k) * k <->
   exists i, 0 <= i < k /\ in_shard N k i x = true).
Proof.
  intros HN Hk.
  assert (Hq : 0 <= N / k) by (apply Z.div_pos; lia).
  split.
  - intros Hx.
    assert (Hpos : 0 < N / k) by nia.
    exists (x / (N / k)).
    assert (Hd : (N / k) * (x / (N / k)) <= x) by (apply Z.mul_div_le; lia).
    assert (Hu : x < (N / k) * (x / (N / k) + 1)).
    { pose proof (Z.mod_pos_bound x (N / k) Hpos) as Hm.
      pose proof (Z.div_mod x (N / k)) as He. nia. }
    assert (Hr : 0 <= x / (N / k) < k).
    { split; [apply Z.div_pos; lia |].
      apply Z.div_lt_upper_bound; nia. }
    split; [exact Hr |].
    unfold in_shard. rewrite shard_range_eq by assumption.
    apply andb_true_iff. split; [apply Z.leb_le | apply Z.ltb_lt]; lia.
  - intros [i [Hi H]]. unfold in_shard in H.
    rewrite shard_range_eq in H by assumption.
    apply andb_true_iff in H. destruct H as [H1 H2].
    apply Z.leb_le in H1. apply Z.ltb_lt in H2. nia.
Qed.

(** With a remainder, the last index of the file list is in no shard. *)
Lemma shard_gap N k i :
  0 <= N -> 0 < k -> N mod k <> 0 -> 0 <= i < k ->
  in_shard N k i (N - 1) = false.
Proof.
  intros HN Hk Hr Hi. unfold in_shard.
  rewrite shard_range_eq by assumption.
  assert (Hq : 0 <= N / k) by (apply Z.div_pos; lia).
  pose proof (Z.div_mod N k) as He.
  pose proof (Z.mod_pos_bound N k Hk) as Hm.
  apply andb_false_iff. right. apply Z.ltb_ge. nia.
Qed.

(** C1 (evaluated on the code): for 100 files and 3 splits every shard has
    33 files, not (33, 33, 34); no shard contains index 99, and slicing the
    file list per shard returns the first 99 files only. *)
Theorem shard_sizes_100_3 :
  map (shard_size 100 3) [0; 1; 2] = [33; 33; 33] /\
  map (shard_range 100 3) [0; 1; 2] = [(0, 33); (33, 66); (66, 99)] /\
  existsb (fun i => in_shard 100 3 i 99) [0; 1; 2] = false /\
  concat (map (shard_files (zrange 100) 3) [0; 1; 2]) = zrange 99.
Proof.
  repeat split; vm_compute; reflexivity.
Qed.

(** ** The validation dataflow *)

Section DataflowProperties.

Variable interp : image -> Z -> Z -> Z -> Z -> pixel.
Variable color_augment : list ColorAug -> image -> Aug image.
Variable dataset_index : string -> string -> list datapoint.
Variable imread : string -> option image.
Variable cpu_count : Z.


(** Whatever the arguments, a returned dataflow is a batching stage with
    [remainder=True] over a strict map stage running [mapf]. *)
Lemma get_val_dataflow_ok datadir bs augs parallel ns si log ds :
  get_val_dataflow interp color_augment dataset_index imread cpu_count
    datadir bs augs parallel ns si = (log, Ok ds) ->
  exists src l p,
    augs = PyList l /\
    ds = BatchData
           (MultiThreadMapData src p (mapf interp color_augment imread l)
              (Z.min 2000 (size dataset_index src)) true)
           bs true.
Proof.
  unfold get_val_dataflow, py_assert.
  destruct datadir as [d |]; [| discriminate].
  destruct augs as [l |]; [| discriminate].
  destruct ns as [n |]; [destruct si as [i |]; [| discriminate] |];
    repeat match goal with
           | |- context [if ?b then _ else _] => destruct b eqn:?; cbn
           end;
    try discriminate;
    intros H; inversion H; subst; eauto.
Qed.


(** C7: with [num_splits] given, a call with [split_index >= num_splits]
    raises [AssertionError] before anything is constructed or logged; a
    call with [split_index < num_splits] (and arguments that pass the two
    earlier assertions) gets past that check: it builds the file listing and
    logs its length. What follows the check is the division, which raises
    for [num_splits = 0], and the constructors, which refuse an empty shard
    and otherwise, given a positive thread count and batch size, return the
    dataflow. *)
Theorem split_index_checked datadir bs augs parallel n i :
  (n <= i ->
   get_val_dataflow interp color_augment dataset_index imread cpu_count
     datadir bs augs parallel (Some n) (Some i)
   = ([], Raise AssertionError)) /\
  (i < n ->
   forall d l, datadir = Some d -> augs = PyList l ->
   let files := dataset_index d "val" in
   let threads := match parallel with
                  | Some p => p
                  | None => Z.min 40 cpu_count
                  end in
   exists log r,
     get_val_dataflow interp color_augment dataset_index imread cpu_count
       datadir bs augs parallel (Some n) (Some i)
     = (Construct "ILSVRC12Files"
          :: LogInfo "Number of validation data = {}"
                     [Z.of_nat (length files)]
          :: log, r) /\
     (n = 0 -> log = [] /\ r = Raise ZeroDivisionError) /\
     (n <> 0 -> shard_files files n i = [] ->
      In (Construct "DataFromList") log /\ r = Raise AssertionError) /\
     (n <> 0 -> shard_files files n i <> [] -> 0 < threads -> 0 < bs ->
      exists ds, r = Ok ds)).
Proof.
  split.
  - intros Hge. unfold get_val_dataflow.
    destruct datadir as [d |]; [| reflexivity].
    destruct augs as [l |]; [| reflexivity].
    unfold py_assert.
    destruct (Z.ltb_spec i n) as [Hlt | _]; [lia | reflexivity].
  - intros Hlt d l -> -> files threads.
    unfold get_val_dataflow, py_assert.
    destruct (Z.ltb_spec i n) as [_ | Hge]; [| lia].
    destruct (Z.eqb_spec n 0) as [-> | Hn].
    + cbn. eexists. eexists. split; [reflexivity |].
      split; [auto |]. split; intros Hc; now elim Hc.
    + subst files. unfold shard_files, shard_range. cbn.
      match goal with
      | |- context [py_slice ?f ?a ?b] =>
          remember (py_slice f a b) as shard eqn:Es
      end.
      fold threads.
      destruct shard as [| dp shard'].
      * cbn. eexists. eexists. split; [reflexivity |].
        split; [intros Hc; now elim Hn |].
        split; [intros _ _; split; [cbn; tauto | reflexivity] |].
        intros _ Hne. now elim Hne.
      * unfold size. cbn [get_data].
        assert (Hbuf : (0 <? Z.min 2000 (Z.of_nat (length (dp :: shard'))))
                       = true).
        { apply Z.ltb_lt. cbn [length]. lia. }
        rewrite Hbuf.
        destruct (Z.ltb_spec 0 threads) as [Ht | Ht];
          destruct (Z.ltb_spec 0 bs) as [Hb | Hb]; cbn;
          (eexists; eexists; split; [reflexivity |];
           split; [intros Hc; now elim Hn |];
           split; [intros _ Hc; discriminate Hc |];
           intros _ _ Ht' Hb'; first [lia | eauto]).
Qed.

(** The map stage keeps every label and the order of the samples. *)
Lemma map_in_order_labels augs ds :
  forall g out g',
    map_in_order (mapf interp color_augment imread augs) ds g = Ok (out, g') ->
    map snd out = map snd ds.
Proof.
  induction ds as [| [fname cls] ds IH]; intros g out g' H.
  - cbn in H. inversion H. reflexivity.
  - cbn in H. unfold abind, lift_result in H.
    destruct (imread fname) as [im |]; [| discriminate].
    destruct (AugmentorList_augment _ _ augs im g) as [[im' g1] | e];
      [| discriminate].
    cbn in H.
    destruct (map_in_order (mapf interp color_augment imread augs) ds g1) as [[xs g2] | e] eqn:E;
      [| discriminate].
    inversion H; subst. cbn. f_equal. eapply IH. exact E.
Qed.



End DataflowProperties.

(** ** Batching *)

Lemma last_group_size n B :
  0 < B -> 0 < n ->
  (n - 1) mod B + 1 = if n mod B =? 0 then B else n mod B.
Proof.
  intros HB Hn.
  pose proof (Z.div_mod n B) as He.
  pose proof (Z.mod_pos_bound n B HB) as Hm.
  destruct (Z.eqb_spec (n mod B) 0) as [H0 | H0].
  - assert (Hr : (n - 1) mod B = B - 1); [| lia].
    symmetry. apply (Z.mod_unique_pos _ _ (n / B - 1)); lia.
  - assert (Hr : (n - 1) mod B = n mod B - 1); [| lia].
    symmetry. apply (Z.mod_unique_pos _ _ (n / B)); lia.
Qed.

Lemma ceil_div_step n B :
  0 < B -> (B + n + B - 1) / B = 1 + (n + B - 1) / B.
Proof.
  intros HB. replace (B + n + B - 1) with (1 * B + (n + B - 1)) by lia.
  rewrite Z.div_add_l by lia. reflexivity.
Qed.

(** With the remainder kept, the groups concatenate to the stream. *)
Lemma BatchData_loop_concat B ds :
  forall holder,
    concat (map snd (BatchData_loop B true holder ds))
    = map snd (holder ++ ds) /\
    concat (map fst (BatchData_loop B true holder ds))
    = map fst (holder ++ ds).
Proof.
  induction ds as [| x ds IH]; intros holder; cbn [BatchData_loop].
  - rewrite app_nil_r, andb_true_l.
    destruct holder as [| y holder]; [split; reflexivity |].
    replace (0 <? Z.of_nat (length (y :: holder))) with true
      by (symmetry; apply Z.ltb_lt; cbn [length]; lia).
    cbn [map concat snd fst]. rewrite !app_nil_r. split; reflexivity.
  - destruct (Z.of_nat (length (holder ++ [x])) =? B).
    + cbn [map concat snd fst]. destruct (IH []) as [IH1 IH2].
      rewrite IH1, IH2. cbn [app].
      rewrite <- !map_app, <- !app_assoc. split; reflexivity.
    + destruct (IH (holder ++ [x])) as [IH1 IH2].
      rewrite IH1, IH2, <- !app_assoc. split; reflexivity.
Qed.

(** Number of groups, and their sizes, from a group in progress that is not
    yet full. *)
Lemma BatchData_loop_shape B ds :
  0 < B ->
  forall holder,
    Z.of_nat (length holder) < B ->
    let n := Z.of_nat (length holder) + Z.of_nat (length ds) in
    let bs := BatchData_loop B true holder ds in
    Z.of_nat (length bs) = (n + B - 1) / B /\
    Forall (fun b => batch_len b = B) (removelast bs) /\
    (0 < n -> batch_len (last bs ([], [])) = (n - 1) mod B + 1).
Proof.
  intros HB. induction ds as [| x ds IH]; intros holder Hh n bs;
    subst n bs; cbn [BatchData_loop].
  - rewrite andb_true_l. cbn [length]. rewrite Z.add_0_r.
    destruct (Z.ltb_spec 0 (Z.of_nat (length holder))) as [Hpos | Hz].
    + cbn [length removelast last]. split.
      * change (Z.of_nat 1) with 1.
        apply (Z.div_unique _ _ _ (Z.of_nat (length holder) - 1)); lia.
      * split; [constructor |]. intros _. unfold batch_len. cbn [snd].
        rewrite length_map, Z.mod_small by lia. lia.
    + assert (Hl : Z.of_nat (length holder) = 0) by lia. rewrite Hl.
      cbn [length removelast]. split.
      * symmetry. apply Z.div_small. lia.
      * split; [constructor | lia].
  - assert (Hlen : Z.of_nat (length (holder ++ [x]))
                   = Z.of_nat (length holder) + 1).
    { rewrite length_app. cbn [length]. lia. }
    assert (Hn : Z.of_nat (length (x :: ds)) = 1 + Z.of_nat (length ds)).
    { cbn [length]. lia. }
    rewrite Hn.
    destruct (Z.eqb_spec (Z.of_nat (length (holder ++ [x]))) B) as [Hfull | Hnot].
    + specialize (IH [] ltac:(cbn [length]; lia)). cbn zeta in IH.
      cbn [length] in IH. rewrite Z.add_0_l in IH.
      destruct IH as (IHn & IHf & IHl).
      set (rest := BatchData_loop B true [] ds) in *.
      assert (Hfirst : batch_len (map fst (holder ++ [x]),
                                  map snd (holder ++ [x])) = B).
      { unfold batch_len. cbn [snd]. rewrite length_map. exact Hfull. }
      split; [| split].
      * cbn [length]. rewrite Nat2Z.inj_succ, IHn.
        replace (Z.of_nat (length holder) + (1 + Z.of_nat (length ds)) + B - 1)
          with (B + Z.of_nat (length ds) + B - 1) by lia.
        rewrite ceil_div_step by lia. lia.
      * destruct rest as [| b rest'] eqn:Er; [constructor |].
        cbn [removelast]. constructor; [exact Hfirst | exact IHf].
      * intros _. destruct rest as [| b rest'] eqn:Er.
        -- cbn [last]. rewrite Hfirst.
           assert (Hds : Z.of_nat (length ds) = 0).
           { cbn [length] in IHn.
             destruct (Z.eq_dec (Z.of_nat (length ds)) 0) as [E | E];
               [exact E |].
             assert (1 <= (Z.of_nat (length ds) + B - 1) / B).
             { apply Z.div_le_lower_bound; lia. }
             change (Z.of_nat 0) with 0 in IHn. lia. }
           replace (Z.of_nat (length holder) + (1 + Z.of_nat (length ds)) - 1)
             with (B - 1) by lia.
           rewrite Z.mod_small by lia. lia.
        -- change (last ((map fst (holder ++ [x]), map snd (holder ++ [x]))
                           :: b :: rest') ([], []))
             with (last (b :: rest') ([], [])).
           assert (Hpos : 0 < Z.of_nat (length ds)).
           { destruct ds; [cbn in Er; discriminate | cbn [length]; lia]. }
           rewrite (IHl Hpos).
           replace (Z.of_nat (length holder) + (1 + Z.of_nat (length ds)) - 1)
             with (Z.of_nat (length ds) - 1 + 1 * B) by lia.
           rewrite Z.mod_add by lia. reflexivity.
    + specialize (IH (holder ++ [x]) ltac:(lia)). cbn zeta in IH.
      rewrite Hlen in IH.
      replace (Z.of_nat (length holder) + (1 + Z.of_nat (length ds)))
        with (Z.of_nat (length holder) + 1 + Z.of_nat (length ds)) by lia.
      destruct IH as (IHn & IHf & IHl).
      split; [exact IHn | split; [exact IHf | intros _; apply IHl; lia]].
Qed.

Section PipelineProperties.

Variable interp : image -> Z -> Z -> Z -> Z -> pixel.
Variable color_augment : list ColorAug -> image -> Aug image.
Variable dataset_index : string -> string -> list datapoint.
Variable imread : string -> option image.
Variable cpu_count : Z.


(** C4: the batching stage of a returned dataflow, run on a stream of
    [K >= 1] samples with [batch_size = B >= 1], yields ceil(K / B) batches;
    all but the last hold [B] samples, the last holds [K mod B] when that is
    not zero (and [B] otherwise), and the labels of the batches are those of
    the stream. *)
Theorem batching_keeps_remainder datadir B augs parallel ns si log ds
    (stream : list (image * Z)) :
  get_val_dataflow interp color_augment dataset_index imread cpu_count
    datadir B augs parallel ns si = (log, Ok ds) ->
  1 <= B ->
  1 <= Z.of_nat (length stream) ->
  let K := Z.of_nat (length stream) in
  let bs := BatchData_get_data (batch_size ds) (remainder ds) stream in
  Z.of_nat (length bs) = (K + B - 1) / B /\
  B * (Z.of_nat (length bs) - 1) < K <= B * Z.of_nat (length bs) /\
  Forall (fun b => batch_len b = B) (removelast bs) /\
  batch_len (last bs ([], [])) = (if K mod B =? 0 then B else K mod B) /\
  concat (map snd bs) = map snd stream /\
  Permutation (concat (map snd bs)) (map snd stream).
Proof.
  intros Hget HB HK K bs.
  apply get_val_dataflow_ok in Hget.
  destruct Hget as (src & l & p & _ & ->). cbn in bs.
  unfold BatchData_get_data in bs.
  destruct (BatchData_loop_shape B stream ltac:(lia) [] ltac:(cbn; lia))
    as (Hn & Hfull & Hlast).
  cbn [length] in Hn, Hlast. rewrite Z.add_0_l in Hn, Hlast.
  fold K in Hn, Hlast. fold bs in Hn, Hfull, Hlast.
  destruct (BatchData_loop_concat B stream []) as [Hlab _].
  fold bs in Hlab. cbn [app] in Hlab.
  split; [exact Hn |]. split.
  - rewrite Hn.
    pose proof (Z.div_mod (K + B - 1) B ltac:(lia)) as He.
    pose proof (Z.mod_pos_bound (K + B - 1) B ltac:(lia)) as Hm.
    nia.
  - split; [exact Hfull |]. split.
    + rewrite Hlast by (unfold K; lia).
      apply last_group_size; unfold K; lia.
    + split; [exact Hlab | rewrite Hlab; apply Permutation_refl].
Qed.

(** C6: [mapf] returns the augmented image paired with exactly the label it
    was given, and the labels of the batches a returned dataflow yields are
    the labels of its source samples, in order. *)
Theorem labels_preserved datadir B augs parallel ns si log ds :
  get_val_dataflow interp color_augment dataset_index imread cpu_count
    datadir B augs parallel ns si = (log, Ok ds) ->
  exists l,
    augs = PyList l /\
    (forall fname cls g im' cls' g',
       map_func (batch_ds ds) (fname, cls) g = Ok ((im', cls'), g') ->
       cls' = cls /\
       exists im, imread fname = Some im /\
                  AugmentorList_augment interp color_augment l im g = Ok (im', g')) /\
    (forall fname cls g im im' g',
       imread fname = Some im ->
       AugmentorList_augment interp color_augment l im g = Ok (im', g') ->
       map_func (batch_ds ds) (fname, cls) g = Ok ((im', cls), g')) /\
    (forall g out,
       BatchData_yields dataset_index ds g out ->
       concat (map snd out)
       = map snd (get_data dataset_index (map_ds (batch_ds ds)))).
Proof.
  intros Hget. apply get_val_dataflow_ok in Hget.
  destruct Hget as (src & l & p & -> & ->). exists l. cbn.
  split; [reflexivity |]. split; [| split].
  - intros fname cls g im' cls' g' H.
    unfold mapf, abind, lift_result, aret in H.
    destruct (imread fname) as [im |]; [| discriminate].
    destruct (AugmentorList_augment interp color_augment l im g) as [[im1 g1] | e] eqn:E; [| discriminate].
    inversion H; subst. split; [reflexivity |].
    exists im. split; [reflexivity | exact E].
  - intros fname cls g im im' g' Hread Haug.
    unfold mapf, abind, lift_result, aret. rewrite Hread, Haug. reflexivity.
  - intros g out (xs & (ys & g' & Hrun & Hys) & ->). cbn in Hrun, Hys.
    subst xs. unfold BatchData_get_data. cbn [batch_size remainder].
    destruct (BatchData_loop_concat B ys []) as [Hlab _].
    rewrite Hlab. cbn [app].
    eapply map_in_order_labels. exact Hrun.
Qed.

End PipelineProperties.

(** ** Evaluation accumulators *)

Lemma Zsum_cons x l : Zsum (x :: l) = x + Zsum l.
Proof. reflexivity. Qed.

Lemma eval_loop_from results :
  forall a1 a5,
    fold_left
      (fun (acc : RatioCounter * RatioCounter) (r : list bool * list bool) =>
         let '(acc1, acc5) := acc in
         let '(top1, top5) := r in
         let batch_size := shape0 top1 in
         (feed acc1 (np_sum top1) batch_size,
          feed acc5 (np_sum top5) batch_size))
      results (a1, a5)
    = (mkRatioCounter (tot a1 + total_samples results)
                      (cnt a1 + total_wrong1 results),
       mkRatioCounter (tot a5 + total_samples results)
                      (cnt a5 + total_wrong5 results)).
Proof.
  induction results as [| [top1 top5] results IH]; intros a1 a5.
  - cbn. rewrite !Z.add_0_r. destruct a1, a5. reflexivity.
  - cbn [fold_left]. rewrite IH.
    unfold feed, total_samples, total_wrong1, total_wrong5.
    cbn [map fst snd tot cnt]. rewrite !Zsum_cons.
    f_equal; f_equal; lia.
Qed.

Lemma eval_loop_totals results :
  eval_loop results
  = (mkRatioCounter (total_samples results) (total_wrong1 results),
     mkRatioCounter (total_samples results) (total_wrong5 results)).
Proof.
  unfold eval_loop. rewrite eval_loop_from. reflexivity.
Qed.

Lemma np_sum_all_false v : forallb negb v = true -> np_sum v = 0.
Proof.
  induction v as [| b v IH]; [reflexivity |].
  cbn [forallb]. intros H. apply andb_true_iff in H. destruct H as [Hb Hv].
  change (np_sum (b :: v)) with ((if b then 1 else 0) + np_sum v).
  destruct b; [discriminate |]. rewrite (IH Hv). reflexivity.
Qed.

Lemma np_sum_all_true v : forallb id v = true -> np_sum v = shape0 v.
Proof.
  unfold shape0. induction v as [| b v IH]; [reflexivity |].
  cbn [forallb length]. intros H.
  apply andb_true_iff in H. destruct H as [Hb Hv].
  change (np_sum (b :: v)) with ((if b then 1 else 0) + np_sum v).
  destruct b; [| discriminate]. rewrite (IH Hv). lia.
Qed.

Lemma total_samples_pos results :
  results <> [] ->
  Forall (fun r => 1 <= shape0 (fst r)) results ->
  0 < total_samples results.
Proof.
  intros Hne Hall. unfold total_samples.
  destruct Hall as [| r results Hr Hall]; [congruence |].
  cbn [map]. rewrite Zsum_cons.
  assert (H0 : 0 <= Zsum (map (fun r => shape0 (fst r)) results)).
  { clear Hne Hr. induction Hall as [| r' rs Hr' _ IH]; [cbn; lia |].
    cbn [map]. rewrite Zsum_cons. lia. }
  lia.
Qed.

(** C5: over any non-empty sequence of non-empty batches, the two printed
    values are exactly (sum of wrong counts) / (sum of batch sizes) for
    top-1 and for top-5; the value is 0 when no sample is wrong and 1 when
    every sample is wrong. *)
Theorem eval_ratio_exact (results : list (list bool * list bool)) :
  results <> [] ->
  Forall (fun r => 1 <= shape0 (fst r) /\ shape0 (snd r) = shape0 (fst r))
         results ->
  let T := total_samples results in
  let C1 := total_wrong1 results in
  let C5 := total_wrong5 results in
  0 < T /\
  eval_on_ILSVRC12 results
  = [ ("Top1 Error: {}"%string, (inject_Z C1 * 1 / inject_Z T)%Q);
      ("Top5 Error: {}"%string, (inject_Z C5 * 1 / inject_Z T)%Q) ] /\
  (inject_Z C1 * 1 / inject_Z T == C1 # Z.to_pos T)%Q /\
  (inject_Z C5 * 1 / inject_Z T == C5 # Z.to_pos T)%Q /\
  (Forall (fun r => forallb negb (fst r) = true) results ->
   (inject_Z C1 * 1 / inject_Z T == 0)%Q) /\
  (Forall (fun r => forallb id (fst r) = true) results ->
   (inject_Z C1 * 1 / inject_Z T == 1)%Q) /\
  (Forall (fun r => forallb negb (snd r) = true) results ->
   (inject_Z C5 * 1 / inject_Z T == 0)%Q) /\
  (Forall (fun r => forallb id (snd r) = true) results ->
   (inject_Z C5 * 1 / inject_Z T == 1)%Q).
Proof.
  intros Hne Hall T C1 C5.
  assert (HT : 0 < T).
  { apply total_samples_pos; [exact Hne |].
    eapply Forall_impl; [| exact Hall]. cbn. intros r [H _]. exact H. }
  assert (Hmk : forall c, (inject_Z c * 1 / inject_Z T == c # Z.to_pos T)%Q).
  { intros c. unfold Qeq, Qdiv, Qmult, Qinv, inject_Z. cbn.
    destruct T as [| p | p]; try lia. cbn. nia. }
  assert (Hzero : forall c, c = 0 -> (inject_Z c * 1 / inject_Z T == 0)%Q).
  { intros c ->. rewrite Hmk. reflexivity. }
  assert (Hone : forall c, c = T -> (inject_Z c * 1 / inject_Z T == 1)%Q).
  { intros c ->. rewrite Hmk. unfold Qeq. cbn.
    rewrite Z2Pos.id by exact HT. lia. }
  split; [exact HT |]. split.
  - unfold eval_on_ILSVRC12. rewrite eval_loop_totals. unfold ratio. cbn [tot cnt].
    fold T C1 C5.
    destruct (Z.eqb_spec T 0) as [E | _]; [lia | reflexivity].
  - split; [apply Hmk |]. split; [apply Hmk |].
    repeat split; intros H.
    + apply Hzero. unfold C1, total_wrong1. clear -H.
      induction H as [| r rs Hr _ IH]; [reflexivity |].
      cbn [map]. rewrite Zsum_cons, (np_sum_all_false _ Hr). lia.
    + apply Hone. unfold C1, T, total_wrong1, total_samples. clear -H.
      induction H as [| r rs Hr _ IH]; [reflexivity |].
      cbn [map]. rewrite !Zsum_cons, (np_sum_all_true _ Hr). lia.
    + apply Hzero. unfold C5, total_wrong5. clear -H.
      induction H as [| r rs Hr _ IH]; [reflexivity |].
      cbn [map]. rewrite Zsum_cons, (np_sum_all_false _ Hr). lia.
    + apply Hone. unfold C5, T, total_wrong5, total_samples. clear -H Hall.
      induction H as [| r rs Hr _ IH]; [reflexivity |].
      inversion Hall as [| r' rs' [_ Hlen] Hall']; subst.
      cbn [map]. rewrite !Zsum_cons, (np_sum_all_true _ Hr), Hlen.
      rewrite (IH Hall'). reflexivity.
Qed.

(** ** Horizontal flip *)

Lemma Qltb_lt x y : Qltb x y = true <-> (x < y)%Q.
Proof. unfold Qltb, Qlt. apply Z.ltb_lt. Qed.

Lemma Qltb_compat x x' y : (x == x')%Q -> Qltb x y = Qltb x' y.
Proof.
  intros E.
  destruct (Qltb x y) eqn:H1, (Qltb x' y) eqn:H2; try reflexivity.
  - apply Qltb_lt in H1. rewrite E in H1. apply Qltb_lt in H1. congruence.
  - apply Qltb_lt in H2. rewrite <- E in H2. apply Qltb_lt in H2. congruence.
Qed.

Lemma uniform01_raw u : (0 + (1 - 0) * u == u)%Q.
Proof. ring. Qed.

Lemma cv2_flip_horiz_involutive img :
  cv2_flip_horiz (cv2_flip_horiz img) = img.
Proof.
  unfold cv2_flip_horiz. rewrite map_map.
  rewrite <- (map_id img) at 2. apply map_ext.
  intros row. apply rev_involutive.
Qed.

Lemma Flip_augment_run prob img u g :
  Flip_augment prob img (u :: g)
  = Ok (if Qltb u prob then cv2_flip_horiz img else img, g).
Proof.
  unfold Flip_augment, abind, lift_draw, aret, rng_uniform. cbn [raw].
  rewrite (Qltb_compat _ u prob (uniform01_raw u)). reflexivity.
Qed.

Lemma filter_all {A} (p : A -> bool) l :
  (forall x, In x l -> p x = true) -> filter p l = l.
Proof.
  induction l as [| a l IH]; intros H; [reflexivity |].
  cbn. rewrite (H a (or_introl eq_refl)). f_equal.
  apply IH. intros x Hx. apply H. right. exact Hx.
Qed.

Lemma filter_none {A} (p : A -> bool) l :
  (forall x, In x l -> p x = false) -> filter p l = [].
Proof.
  induction l as [| a l IH]; intros H; [reflexivity |].
  cbn. rewrite (H a (or_introl eq_refl)).
  apply IH. intros x Hx. apply H. right. exact Hx.
Qed.

Lemma below_half_on_grid n k :
  (0 < n)%nat ->
  Qltb (Z.of_nat k # Pos.of_nat (2 * n)) (1 # 2) = (k <? n)%nat.
Proof.
  intros Hn. unfold Qltb. cbn [Qnum Qden].
  assert (Hd : Z.pos (Pos.of_nat (2 * n)) = 2 * Z.of_nat n).
  { rewrite <- positive_nat_Z, Nat2Pos.id by lia. lia. }
  rewrite Hd.
  destruct (Nat.ltb_spec k n) as [H | H].
  - apply Z.ltb_lt. lia.
  - apply Z.ltb_ge. lia.
Qed.

Lemma flips_on_grid_half n : flips_on_grid (1 # 2) n = n.
Proof.
  unfold flips_on_grid. destruct n as [| m]; [reflexivity |].
  set (n := S m). assert (Hn : (0 < n)%nat) by (unfold n; lia).
  replace (2 * n)%nat with (n + n)%nat by lia.
  rewrite seq_app, filter_app, length_app.
  rewrite filter_all, filter_none.
  - rewrite length_seq. cbn [length]. lia.
  - intros k Hk. apply in_seq in Hk.
    replace (n + n)%nat with (2 * n)%nat by lia.
    rewrite below_half_on_grid by exact Hn.
    apply Nat.ltb_ge. lia.
  - intros k Hk. apply in_seq in Hk.
    replace (n + n)%nat with (2 * n)%nat by lia.
    rewrite below_half_on_grid by exact Hn.
    apply Nat.ltb_lt. lia.
Qed.

(** The row [y] of the flipped image is the row [y] of the image read from
    the right: column [x] holds the pixel of column [width - 1 - x]. *)
Lemma cv2_flip_horiz_pixel (img : image) y x d :
  (x < length (nth y img []))%nat ->
  nth x (nth y (cv2_flip_horiz img) []) d
  = nth (length (nth y img []) - S x) (nth y img []) d.
Proof.
  intros Hx. unfold cv2_flip_horiz.
  change (@nil pixel) with (rev (@nil pixel)) at 1.
  rewrite map_nth. apply rev_nth. exact Hx.
Qed.

Lemma cv2_flip_horiz_keeps_shape img h w :
  has_shape img h w -> has_shape (cv2_flip_horiz img) h w.
Proof.
  unfold has_shape, height, cv2_flip_horiz. intros [Hh Hw]. split.
  - now rewrite length_map.
  - apply Forall_map. eapply Forall_impl; [| exact Hw].
    cbn. intros row Hrow. now rewrite length_rev.
Qed.

(** C8: the flip mirrors the image left-right: it keeps the shape, every row
    stays in its place, and column [x] of a row holds the pixel that was in
    column [width - 1 - x]. Flipping twice returns the pixel array itself,
    also through [Flip] when both draws force the flip; one application
    flips exactly when its draw is below one half, which half of the equally
    spaced draws are; the transform is the last of the training augmentors
    and [mapf] hands the label on unchanged. *)
Theorem flip_twice_is_identity (img : image) :
  cv2_flip_horiz (cv2_flip_horiz img) = img /\
  (forall h w, has_shape img h w -> has_shape (cv2_flip_horiz img) h w) /\
  (forall h w y x d,
     has_shape img h w -> 0 <= y < h -> 0 <= x < w ->
     nth (Z.to_nat x) (nth (Z.to_nat y) (cv2_flip_horiz img) []) d
     = nth (Z.to_nat (w - 1 - x)) (nth (Z.to_nat y) img []) d) /\
  (forall u1 u2 g,
     Qltb u1 (1 # 2) = true -> Qltb u2 (1 # 2) = true ->
     (im <- Flip_augment (1 # 2) img ;; Flip_augment (1 # 2) im)%aug
       (u1 :: u2 :: g)
     = Ok (img, g)) /\
  (forall u g,
     Flip_augment (1 # 2) img (u :: g)
     = Ok (if Qltb u (1 # 2) then cv2_flip_horiz img else img, g)) /\
  (forall n, flips_on_grid (1 # 2) n = n) /\
  last (fbresnet_augmentor true) (AugFlip 0) = AugFlip (1 # 2) /\
  (forall interp color_augment imread fname cls g im' cls' g',
     imread fname = Some img ->
     mapf interp color_augment imread [AugFlip (1 # 2)] (fname, cls) g
     = Ok ((im', cls'), g') ->
     cls' = cls).
Proof.
  split; [apply cv2_flip_horiz_involutive |].
  split; [intros h w; apply cv2_flip_horiz_keeps_shape |]. split.
  - intros h w y x d [Hh Hw] Hy Hx. unfold height in Hh.
    assert (Hrow : Z.of_nat (length (nth (Z.to_nat y) img [])) = w).
    { apply (proj1 (Forall_nth _ img) Hw). lia. }
    rewrite cv2_flip_horiz_pixel by lia.
    f_equal. lia.
  - split.
    + intros u1 u2 g H1 H2. unfold abind.
      rewrite Flip_augment_run, H1, Flip_augment_run, H2.
      rewrite cv2_flip_horiz_involutive. reflexivity.
    + split; [intros u g; apply Flip_augment_run |].
      split; [exact flips_on_grid_half |]. split; [reflexivity |].
      intros interp color_augment imread fname cls g im' cls' g' Hread H.
      unfold mapf, abind, lift_result in H. rewrite Hread in H.
      cbn [AugmentorList_augment augment] in H. unfold abind in H.
      destruct (Flip_augment (1 # 2) img g) as [[im1 g1] | e];
        [| discriminate].
      cbn in H. inversion H. reflexivity.
Qed.

(** ** The resize benchmark *)

Lemma rand_row_length w : forall g, length (fst (rand_row w g)) = w.
Proof.
  induction w as [| w IH]; intros g; [reflexivity |].
  cbn [rand_row]. destruct (rand_pixel g) as [p g1].
  specialize (IH g1). destruct (rand_row w g1) as [row g2].
  cbn [fst length] in *. now rewrite IH.
Qed.

Lemma rand_image_shape h w :
  forall g, has_shape (fst (rand_image h w g)) (Z.of_nat h) (Z.of_nat w).
Proof.
  unfold has_shape, height.
  induction h as [| h IH]; intros g.
  - cbn. split; [reflexivity | constructor].
  - cbn [rand_image]. pose proof (rand_row_length w g) as Hrow.
    destruct (rand_row w g) as [row g1].
    specialize (IH g1). destruct (rand_image h w g1) as [img g2].
    cbn [fst length] in *. destruct IH as [IHh IHw]. split.
    + lia.
    + constructor; [now rewrite Hrow | exact IHw].
Qed.

Lemma has_shape_width img h w :
  has_shape img h w -> 0 < h -> width img = w.
Proof.
  unfold has_shape, height, width. intros [Hh Hw] Hpos.
  destruct img as [| row img]; [cbn in Hh; lia |].
  inversion Hw; subst. reflexivity.
Qed.

Section BenchmarkProperties.

Variable pil_interp : image -> Z -> Z -> Z -> Z -> pixel.

Lemma for_range_benchmark_body img_np n :
  forall s,
    let s' := for_range n (benchmark_body pil_interp img_np) s in
    clock s' = clock s /\
    stdout s' = stdout s /\
    ops s' = ops s ++ concat (repeat
               [OpFromArray (height img_np, width img_np);
                OpResize (width img_np, height img_np) (384, 384)] n).
Proof.
  induction n as [| n IH]; intros s; cbn zeta.
  - cbn. rewrite app_nil_r. auto.
  - cbn [for_range repeat concat].
    destruct (IH (benchmark_body pil_interp img_np s)) as (Hc & Ho & Hops).
    rewrite Hc, Ho, Hops. unfold benchmark_body, record_op. cbn.
    rewrite <- !app_assoc. auto.
Qed.

Lemma count_resizes a b n :
  length (filter is_resize
            (concat (repeat [OpFromArray a; OpResize b (384, 384)] n))) = n.
Proof.
  induction n as [| n IH]; [reflexivity |].
  cbn [repeat concat app filter is_resize length]. now rewrite IH.
Qed.

Lemma count_ops (a b : bench_op) n :
  length (concat (repeat [a; b] n)) = (2 * n)%nat.
Proof.
  induction n as [| n IH]; [reflexivity |].
  cbn [repeat concat app length]. rewrite IH. lia.
Qed.

Lemma every_op (a b : bench_op) n :
  Forall (fun op => op = a \/ op = b) (concat (repeat [a; b] n)).
Proof.
  induction n as [| n IH]; [constructor |].
  cbn [repeat concat app]. constructor; [left; reflexivity |].
  constructor; [right; reflexivity | exact IH].
Qed.

(** C9: with wall-clock readings [t0] before and [t1] after the loop, the
    script converts and resizes the 256x256 array to 384x384 exactly 1000
    times and prints one value, [t1 - t0]. *)
Theorem benchmark_trace (g : Rng) (t0 t1 : Q) (later : list Q) :
  let s := benchmark pil_interp g (t0 :: t1 :: later) in
  stdout s = [(t1 - t0)%Q] /\
  length (filter is_resize (ops s)) = 1000%nat /\
  length (ops s) = 2000%nat /\
  Forall (fun op => op = OpFromArray (256, 256)
                    \/ op = OpResize (256, 256) (384, 384)) (ops s) /\
  clock s = later.
Proof.
  unfold benchmark.
  pose proof (rand_image_shape 256 256 g) as Hshape.
  destruct (rand_image 256 256 g) as [img_np g'] eqn:Eimg.
  cbn [fst] in Hshape.
  assert (Hh : height img_np = 256) by (destruct Hshape as [H _]; exact H).
  assert (Hw : width img_np = 256).
  { apply (has_shape_width _ _ _ Hshape). lia. }
  cbn [time_time clock stdout ops].
  set (s0 := mkBench (t1 :: later) [] []).
  destruct (for_range_benchmark_body img_np 1000 s0) as (Hc & Ho & Hops).
  set (s1 := for_range 1000 (benchmark_body pil_interp img_np) s0) in *.
  unfold time_time. rewrite Hc. cbn [clock s0].
  unfold print. cbn [stdout ops clock]. rewrite Ho, Hops, Hh, Hw.
  cbn [stdout ops s0 app].
  split; [reflexivity |]. split; [apply count_resizes |].
  split; [apply count_ops |].
  split; [apply every_op | reflexivity].
Qed.

End BenchmarkProperties.

(** ** Slices, crops and resizes *)

Lemma py_slice_length {A} (l : list A) a b :
  0 <= a -> a <= b -> b <= Z.of_nat (length l) ->
  Z.of_nat (length (py_slice l a b)) = b - a.
Proof.
  intros Ha Hab Hb. unfold py_slice, py_clip.
  destruct (Z.ltb_spec a 0) as [H | _]; [lia |].
  destruct (Z.ltb_spec b 0) as [H | _]; [lia |].
  rewrite !Z.min_l by lia.
  rewrite length_firstn, length_skipn. lia.
Qed.

Lemma Forall_firstn {A} (P : A -> Prop) n (l : list A) :
  Forall P l -> Forall P (firstn n l).
Proof.
  intros H. rewrite <- (firstn_skipn n l) in H.
  apply Forall_app in H. tauto.
Qed.

Lemma Forall_skipn {A} (P : A -> Prop) n (l : list A) :
  Forall P l -> Forall P (skipn n l).
Proof.
  intros H. rewrite <- (firstn_skipn n l) in H.
  apply Forall_app in H. tauto.
Qed.

Lemma py_slice_Forall {A} (P : A -> Prop) (l : list A) a b :
  Forall P l -> Forall P (py_slice l a b).
Proof.
  intros H. unfold py_slice. apply Forall_firstn, Forall_skipn. exact H.
Qed.

Lemma crop_shape img h w y1 y2 x1 x2 :
  has_shape img h w ->
  0 <= y1 -> y1 <= y2 -> y2 <= h ->
  0 <= x1 -> x1 <= x2 -> x2 <= w ->
  has_shape (crop img y1 y2 x1 x2) (y2 - y1) (x2 - x1).
Proof.
  intros [Hh Hw] Hy1 Hy Hy2 Hx1 Hx Hx2. unfold has_shape, height, crop in *.
  split.
  - rewrite length_map. apply py_slice_length; lia.
  - apply Forall_map.
    apply (py_slice_Forall _ _ y1 y2) in Hw.
    eapply Forall_impl; [| exact Hw]. cbn. intros row Hrow.
    apply py_slice_length; lia.
Qed.

Lemma zrange_length n : 0 <= n -> Z.of_nat (length (zrange n)) = n.
Proof.
  intros Hn. unfold zrange. rewrite length_map, length_seq. lia.
Qed.

Section ResizeProperties.

Variable interp : image -> Z -> Z -> Z -> Z -> pixel.

(** A non-empty source resized to a positive size has exactly that size. *)
Lemma cv2_resize_shape src dw dh :
  1 <= height src -> 1 <= width src -> 1 <= dw -> 1 <= dh ->
  exists out, cv2_resize interp src (dw, dh) = Ok out /\ has_shape out dh dw.
Proof.
  intros Hh Hw Hdw Hdh. unfold cv2_resize.
  destruct (Z.leb_spec (height src) 0) as [H | _]; [lia |].
  destruct (Z.leb_spec (width src) 0) as [H | _]; [lia |].
  destruct (Z.leb_spec dw 0) as [H | _]; [lia |].
  destruct (Z.leb_spec dh 0) as [H | _]; [lia |].
  cbn [orb]. eexists. split; [reflexivity |].
  unfold has_shape, height. split.
  - rewrite length_map. apply zrange_length. lia.
  - apply Forall_map. apply Forall_forall. intros i _.
    rewrite length_map. apply zrange_length. lia.
Qed.

(** Whatever [cv2.resize] returns has the requested size. *)
Lemma cv2_resize_ok_shape src dw dh out :
  cv2_resize interp src (dw, dh) = Ok out -> has_shape out dh dw.
Proof.
  unfold cv2_resize.
  destruct ((height src <=? 0) || (width src <=? 0)); [discriminate |].
  destruct (Z.leb_spec dw 0) as [H | Hdw]; [discriminate |].
  destruct (Z.leb_spec dh 0) as [H | Hdh]; [discriminate |].
  cbn [orb]. intros H. inversion H; subst out.
  unfold has_shape, height. split.
  - rewrite length_map. apply zrange_length. lia.
  - apply Forall_map. apply Forall_forall. intros i _.
    rewrite length_map. apply zrange_length. lia.
Qed.

(** An empty crop cannot be resized. *)
Lemma cv2_resize_empty dsize : cv2_resize interp [] dsize = Raise cv2_error.
Proof. destruct dsize. reflexivity. Qed.

End ResizeProperties.

(** ** Draws *)

Lemma raw_skipn g : raw g = (fst (raw g), skipn 1 g).
Proof. destruct g; reflexivity. Qed.

Lemma raw_ok g :
  tape_ok g ->
  (0 <= fst (raw g))%Q /\ (fst (raw g) < 1)%Q /\ tape_ok (snd (raw g)).
Proof.
  unfold tape_ok. intros H. destruct g as [| u g]; cbn.
  - split; [lra | split; [lra | constructor]].
  - inversion H as [| ? ? [H0 H1] Hg]; subst.
    split; [exact H0 | split; [exact H1 | exact Hg]].
Qed.

Lemma tape_ok_skipn n g : tape_ok g -> tape_ok (skipn n g).
Proof.
  unfold tape_ok. apply Forall_skipn.
Qed.

Lemma rng_randint_range n g :
  0 < n -> tape_ok g ->
  exists x, rng_randint 0 n g = Ok (x, skipn 1 g) /\ 0 <= x < n.
Proof.
  intros Hn Hg. unfold rng_randint.
  destruct (Z.leb_spec n 0) as [H | _]; [lia |].
  rewrite (raw_skipn g).
  destruct (raw_ok g Hg) as (H0 & H1 & _).
  set (u := fst (raw g)) in *.
  eexists. split; [reflexivity |].
  rewrite Z.sub_0_r, Z.add_0_l.
  assert (Hn' : (0 < inject_Z n)%Q) by (rewrite Zlt_Qlt in Hn; exact Hn).
  split.
  - change 0 with (Qfloor 0). apply Qfloor_resp_le.
    apply Qmult_le_0_compat; lra.
  - rewrite Zlt_Qlt.
    apply Qle_lt_trans with (u * inject_Z n)%Q; [apply Qfloor_le |].
    setoid_replace (inject_Z n) with (1 * inject_Z n)%Q at 2 by ring.
    apply Qmult_lt_compat_r; assumption.
Qed.

Lemma spec_offset_range room g :
  0 <= room -> tape_ok g ->
  exists x g', spec_offset room g = Ok (x, g') /\ 0 <= x <= room /\ tape_ok g'.
Proof.
  intros Hroom Hg. unfold spec_offset.
  destruct (Z.eqb_spec room 0) as [-> | Hne].
  - exists 0, g. unfold aret. split; [reflexivity |]. split; [lia | exact Hg].
  - destruct (rng_randint_range room g ltac:(lia) Hg) as (x & Hx & Hr).
    exists x, (skipn 1 g). split; [exact Hx |].
    split; [lia | apply tape_ok_skipn; exact Hg].
Qed.

(** ** Candidate sizes *)

Lemma py_int_lower n x : 0 <= n -> (inject_Z n <= x)%Q -> n <= py_int x.
Proof.
  intros Hn H. unfold py_int. destruct x as [a d]. unfold Qle in H. cbn in *.
  rewrite Z.quot_div_nonneg by lia.
  apply Z.div_le_lower_bound; lia.
Qed.

Lemma py_int_half m :
  0 <= m -> 0 <= py_int (inject_Z m * (1 # 2)) /\
            2 * py_int (inject_Z m * (1 # 2)) <= m.
Proof.
  intros Hm. unfold py_int.
  change (Qnum (inject_Z m * (1 # 2))) with (m * 1).
  change (Z.pos (Qden (inject_Z m * (1 # 2)))) with 2.
  rewrite Z.mul_1_r, Z.quot_div_nonneg by lia.
  pose proof (Z.mul_div_le m 2 ltac:(lia)) as H.
  split; [apply Z.div_pos; lia | lia].
Qed.

Lemma nearest_sqrt_pos x : (1 # 4 <= x)%Q -> 1 <= nearest_sqrt x.
Proof.
  intros H. unfold nearest_sqrt.
  assert (H4 : 1 <= Qfloor (4 * x)).
  { change 1 with (Qfloor 1). apply Qfloor_resp_le. lra. }
  assert (Hs : 1 <= Z.sqrt (Qfloor (4 * x))).
  { change 1 with (Z.sqrt 1). apply Z.sqrt_le_mono. exact H4. }
  apply Z.div_le_lower_bound; lia.
Qed.

(** [nearest_sqrt x] is the integer [n] with [n - 1/2 <= sqrt x < n + 1/2],
    the value of [int(np.sqrt(x) + 0.5)] in exact arithmetic. *)
Lemma nearest_sqrt_spec x :
  (0 <= x)%Q ->
  let n := nearest_sqrt x in
  0 <= n /\
  (4 * x < inject_Z ((2 * n + 1) * (2 * n + 1)))%Q /\
  (1 <= n -> (inject_Z ((2 * n - 1) * (2 * n - 1)) <= 4 * x)%Q).
Proof.
  intros Hx n. subst n. unfold nearest_sqrt.
  set (m := Qfloor (4 * x)).
  assert (Hm0 : 0 <= m).
  { change 0 with (Qfloor 0). apply Qfloor_resp_le. lra. }
  pose proof (Z.sqrt_spec m Hm0) as [Hs1 Hs2].
  assert (Hs0 : 0 <= Z.sqrt m) by apply Z.sqrt_nonneg.
  set (s := Z.sqrt m) in *.
  pose proof (Z.div_mod (1 + s) 2 ltac:(lia)) as Hd.
  pose proof (Z.mod_pos_bound (1 + s) 2 ltac:(lia)) as Hr.
  set (n := (1 + s) / 2) in *.
  assert (Hle : (inject_Z m <= 4 * x)%Q) by apply Qfloor_le.
  assert (Hlt : (4 * x < inject_Z (m + 1))%Q) by apply Qlt_floor.
  split; [lia |]. split.
  - apply Qlt_le_trans with (inject_Z (m + 1)); [exact Hlt |].
    rewrite <- Zle_Qle. nia.
  - intros Hn. apply Qle_trans with (inject_Z m); [| exact Hle].
    rewrite <- Zle_Qle. nia.
Qed.

Lemma round_sqrt_nearest x :
  (0 <= x)%Q -> round_sqrt x = Ok (nearest_sqrt x).
Proof.
  intros Hx. unfold round_sqrt.
  rewrite (proj2 (Qle_bool_iff _ _) Hx). reflexivity.
Qed.

Lemma scale_lower (t m w : Z) :
  0 <= t -> 1 <= m -> m <= w ->
  (inject_Z t <= inject_Z t * 1 / inject_Z m * inject_Z w + (1 # 2))%Q.
Proof.
  intros Ht Hm Hw.
  assert (Hm' : (1 <= inject_Z m)%Q) by (rewrite Zle_Qle in Hm; exact Hm).
  assert (Hw' : (inject_Z m <= inject_Z w)%Q)
    by (rewrite Zle_Qle in Hw; exact Hw).
  assert (Ht' : (0 <= inject_Z t)%Q) by (rewrite Zle_Qle in Ht; exact Ht).
  set (T := inject_Z t) in *. set (M := inject_Z m) in *.
  set (W := inject_Z w) in *.
  assert (Hs : (T * 1 / M * M == T)%Q) by (field; lra).
  assert (Hs0 : (0 <= T * 1 / M)%Q).
  { unfold Qdiv. apply Qmult_le_0_compat; [lra |].
    apply Qinv_le_0_compat. lra. }
  assert ((T * 1 / M * M <= T * 1 / M * W)%Q).
  { rewrite !(Qmult_comm (T * 1 / M)).
    apply Qmult_le_compat_r; assumption. }
  lra.
Qed.

(** ** The crop search *)

Lemma uniform_range lo hi u :
  (lo <= hi)%Q -> (0 <= u)%Q -> (u < 1)%Q ->
  (lo <= lo + (hi - lo) * u)%Q /\ (lo + (hi - lo) * u <= hi)%Q.
Proof.
  intros Hlh H0 H1.
  assert (Hd : (0 <= hi - lo)%Q) by lra.
  assert (Hp : (0 <= (hi - lo) * u)%Q) by (apply Qmult_le_0_compat; lra).
  assert (Hq : ((hi - lo) * u <= (hi - lo) * 1)%Q).
  { rewrite !(Qmult_comm (hi - lo)). apply Qmult_le_compat_r; lra. }
  split; lra.
Qed.

(** The fraction and the aspect ratio of a trial lie in their intervals, and
    both square-root arguments are defined. *)
Lemma spec_trial_ranges self h w u1 u2 u3 :
  params_ok self -> 0 <= h -> 0 <= w ->
  (0 <= u1)%Q -> (u1 < 1)%Q -> (0 <= u2)%Q -> (u2 < 1)%Q ->
  let t := spec_trial self h w u1 u2 u3 in
  (crop_area_fraction self <= trial_fraction t)%Q /\
  (trial_fraction t <= 1)%Q /\
  (aspect_ratio_low self <= trial_aspect t)%Q /\
  (trial_aspect t <= aspect_ratio_high self)%Q /\
  (0 <= trial_fraction t * inject_Z (h * w))%Q.
Proof.
  intros (Hc0 & Hc1 & Hlo & Hlh) Hh Hw Hu1 Hu1' Hu2 Hu2' t.
  subst t. unfold spec_trial. cbn [trial_fraction trial_aspect].
  destruct (uniform_range (crop_area_fraction self) 1 u1 Hc1 Hu1 Hu1')
    as [Hf1 Hf2].
  destruct (uniform_range _ _ u2 Hlh Hu2 Hu2') as [Ha1 Ha2].
  repeat (split; [assumption |]).
  apply Qmult_le_0_compat; [lra |].
  assert (Hhw : 0 <= h * w) by nia.
  rewrite Zle_Qle in Hhw. exact Hhw.
Qed.

Lemma offset_choice (w ww : Z) :
  (if w =? ww then aret 0 else rng_randint 0 (w - ww)) = spec_offset (w - ww).
Proof.
  unfold spec_offset.
  destruct (Z.eqb_spec w ww) as [E | E], (Z.eqb_spec (w - ww) 0) as [E' | E'];
    try reflexivity; lia.
Qed.

Section CropSearch.

Variable interp : image -> Z -> Z -> Z -> Z -> pixel.

Lemma height_nonneg (img : image) : 0 <= height img.
Proof. unfold height. lia. Qed.

Lemma width_nonneg (img : image) : 0 <= width img.
Proof. unfold width. destruct img; lia. Qed.

(** One loop iteration, in terms of its candidate. *)
Lemma GoogleNetResize_trial_run self img g u1 g1 u2 g2 u3 g3 :
  params_ok self ->
  raw g = (u1, g1) -> raw g1 = (u2, g2) -> raw g2 = (u3, g3) ->
  (0 <= u1)%Q -> (u1 < 1)%Q -> (0 <= u2)%Q -> (u2 < 1)%Q ->
  let t := spec_trial self (height img) (width img) u1 u2 u3 in
  GoogleNetResize_trial interp self img g
  = if fits (height img) (width img) t
    then match crop_and_resize interp self img t g3 with
         | Ok (out, g') => Ok (Some out, g')
         | Raise e => Raise e
         end
    else Ok (None, g3).
Proof.
  intros Hp E1 E2 E3 Hu1 Hu1' Hu2 Hu2' t.
  destruct (spec_trial_ranges self (height img) (width img) u1 u2 u3 Hp
              (height_nonneg img) (width_nonneg img) Hu1 Hu1' Hu2 Hu2')
    as (Hf1 & Hf2 & Ha1 & Ha2 & Harea).
  fold t in Hf1, Hf2, Ha1, Ha2, Harea.
  destruct Hp as (Hc0 & Hc1 & Hlo & Hlh).
  assert (Hapos : (0 < trial_aspect t)%Q) by lra.
  unfold GoogleNetResize_trial, abind, lift_draw, rng_uniform.
  rewrite E1, E2.
  change (crop_area_fraction self + (1 - crop_area_fraction self) * u1)%Q
    with (trial_fraction t).
  change (aspect_ratio_low self
          + (aspect_ratio_high self - aspect_ratio_low self) * u2)%Q
    with (trial_aspect t).
  unfold lift_result at 1, round_sqrt at 1.
  assert (Hx : (0 <= trial_fraction t * inject_Z (height img * width img)
                     * trial_aspect t)%Q).
  { apply Qmult_le_0_compat; lra. }
  rewrite (proj2 (Qle_bool_iff _ _) Hx).
  unfold lift_result at 1, py_fdiv.
  destruct (Qeq_bool (trial_aspect t) 0) eqn:Ez.
  { apply Qeq_bool_iff in Ez. lra. }
  unfold lift_result at 1, round_sqrt.
  assert (Hy : (0 <= trial_fraction t * inject_Z (height img * width img)
                     / trial_aspect t)%Q).
  { unfold Qdiv. apply Qmult_le_0_compat; [lra |].
    apply Qinv_le_0_compat. lra. }
  rewrite (proj2 (Qle_bool_iff _ _) Hy).
  rewrite E3.
  unfold fits, crop_and_resize, abind, aret.
  subst t. unfold spec_trial. cbn [trial_ww trial_hh trial_fraction trial_aspect].
  fold (nearest_sqrt
          ((crop_area_fraction self + (1 - crop_area_fraction self) * u1)
           * inject_Z (height img * width img)
           * (aspect_ratio_low self
              + (aspect_ratio_high self - aspect_ratio_low self) * u2))).
  fold (nearest_sqrt
          ((crop_area_fraction self + (1 - crop_area_fraction self) * u1)
           * inject_Z (height img * width img)
           / (aspect_ratio_low self
              + (aspect_ratio_high self - aspect_ratio_low self) * u2))).
  destruct (Qltb (0 + (1 - 0) * u3) (1 # 2));
    match goal with
    | |- context [(?a <=? height img) && (?b <=? width img)] =>
        destruct ((a <=? height img) && (b <=? width img)); [| reflexivity]
    end;
    rewrite !offset_choice;
    repeat match goal with
    | |- context [spec_offset ?r ?g] => destruct (spec_offset r g) as [[? ?] | ?]
    | |- context [lift_result ?r ?g] => destruct r; cbn [lift_result]
    end; reflexivity.
Qed.

Lemma raw_tail g u g' : raw g = (u, g') -> g' = skipn 1 g.
Proof. destruct g; cbn; intros H; inversion H; reflexivity. Qed.

Lemma raw_bounds g u g' :
  tape_ok g -> raw g = (u, g') -> (0 <= u)%Q /\ (u < 1)%Q /\ tape_ok g'.
Proof.
  intros Hg E. pose proof (raw_ok g Hg) as H. rewrite E in H. exact H.
Qed.

Lemma find_index_Some {A} (p : A -> bool) l d :
  forall k, find_index p l = Some k ->
            (k < length l)%nat /\ p (nth k l d) = true.
Proof.
  induction l as [| x l IH]; intros k H; [discriminate |].
  cbn in H. destruct (p x) eqn:Ex.
  - inversion H; subst. cbn. split; [lia | exact Ex].
  - destruct (find_index p l) as [k' |]; [| discriminate].
    cbn in H. inversion H; subst. destruct (IH k' eq_refl) as [Hl Hp].
    cbn. split; [lia | exact Hp].
Qed.

(** The loop of [_augment] run for [n] iterations is the search for the
    first fitting candidate among [n] trials. *)
Lemma GoogleNetResize_loop_is_search self img n :
  params_ok self ->
  forall g, tape_ok g ->
    GoogleNetResize_loop interp n self img g
    = spec_search interp n self img g.
Proof.
  intros Hp. induction n as [| n IH]; intros g Hg.
  - unfold spec_search. cbn. reflexivity.
  - cbn [GoogleNetResize_loop]. unfold abind at 1.
    destruct (raw g) as [u1 g1] eqn:E1.
    destruct (raw g1) as [u2 g2] eqn:E2.
    destruct (raw g2) as [u3 g3] eqn:E3.
    destruct (raw_bounds _ _ _ Hg E1) as (Hu1 & Hu1' & Hg1).
    destruct (raw_bounds _ _ _ Hg1 E2) as (Hu2 & Hu2' & Hg2).
    destruct (raw_bounds _ _ _ Hg2 E3) as (_ & _ & Hg3).
    rewrite (GoogleNetResize_trial_run self img g u1 g1 u2 g2 u3 g3
               Hp E1 E2 E3 Hu1 Hu1' Hu2 Hu2').
    assert (Hskip : g3 = skipn 3 g).
    { rewrite (raw_tail _ _ _ E3), (raw_tail _ _ _ E2), (raw_tail _ _ _ E1).
      rewrite !skipn_skipn. reflexivity. }
    unfold spec_search. cbn [spec_trials]. rewrite E1, E2, E3.
    set (t := spec_trial self (height img) (width img) u1 u2 u3).
    cbn [find_index].
    destruct (fits (height img) (width img) t) eqn:F.
    + cbn [nth]. change (skipn (3 * (0 + 1)) g) with (skipn 3 g).
      rewrite <- Hskip.
      destruct (crop_and_resize interp self img t g3) as [[out g'] | e];
        reflexivity.
    + rewrite (IH g3 Hg3). unfold spec_search.
      destruct (find_index (fits (height img) (width img))
                  (spec_trials n self (height img) (width img) g3))
        as [k |]; cbn [option_map nth].
      * rewrite Hskip, skipn_skipn.
        replace (3 * (k + 1) + 3)%nat with (3 * (S k + 1))%nat by lia.
        reflexivity.
      * rewrite Hskip, skipn_skipn.
        replace (3 * n + 3)%nat with (3 * S n)%nat by lia.
        reflexivity.
Qed.

(** Every trial read off a tape of draws from [0, 1) samples its fraction
    and aspect ratio from the configured intervals. *)
Lemma spec_trials_ranges self h w n :
  params_ok self -> 0 <= h -> 0 <= w ->
  forall g, tape_ok g ->
    Forall (fun t =>
              (crop_area_fraction self <= trial_fraction t)%Q /\
              (trial_fraction t <= 1)%Q /\
              (aspect_ratio_low self <= trial_aspect t)%Q /\
              (trial_aspect t <= aspect_ratio_high self)%Q)
           (spec_trials n self h w g).
Proof.
  intros Hp Hh Hw. induction n as [| n IH]; intros g Hg; [constructor |].
  cbn [spec_trials].
  destruct (raw g) as [u1 g1] eqn:E1.
  destruct (raw g1) as [u2 g2] eqn:E2.
  destruct (raw g2) as [u3 g3] eqn:E3.
  destruct (raw_bounds _ _ _ Hg E1) as (Hu1 & Hu1' & Hg1).
  destruct (raw_bounds _ _ _ Hg1 E2) as (Hu2 & Hu2' & Hg2).
  destruct (raw_bounds _ _ _ Hg2 E3) as (_ & _ & Hg3).
  constructor; [| apply IH; exact Hg3].
  destruct (spec_trial_ranges self h w u1 u2 u3 Hp Hh Hw Hu1 Hu1' Hu2 Hu2')
    as (H1 & H2 & H3 & H4 & _).
  auto.
Qed.

Lemma spec_trials_length self h w n :
  forall g, length (spec_trials n self h w g) = n.
Proof.
  induction n as [| n IH]; intros g; [reflexivity |].
  cbn [spec_trials].
  destruct (raw g) as [u1 g1]. destruct (raw g1) as [u2 g2].
  destruct (raw g2) as [u3 g3]. cbn [length]. now rewrite IH.
Qed.

(** When no candidate side can round to zero, every candidate has positive
    sides. *)
Lemma spec_trial_positive self h w u1 u2 u3 :
  params_ok self -> candidates_positive self h w -> 0 <= h -> 0 <= w ->
  (0 <= u1)%Q -> (u1 < 1)%Q -> (0 <= u2)%Q -> (u2 < 1)%Q ->
  let t := spec_trial self h w u1 u2 u3 in
  1 <= trial_ww t /\ 1 <= trial_hh t.
Proof.
  intros Hp [Hc1 Hc2] Hh Hw Hu1 Hu1' Hu2 Hu2' t.
  destruct (spec_trial_ranges self h w u1 u2 u3 Hp Hh Hw Hu1 Hu1' Hu2 Hu2')
    as (Hf1 & Hf2 & Ha1 & Ha2 & Harea).
  fold t in Hf1, Hf2, Ha1, Ha2, Harea.
  destruct Hp as (Hp0 & Hp1 & Hlo & Hlh).
  assert (HA : (0 <= inject_Z (h * w))%Q).
  { assert (Hhw : 0 <= h * w) by nia. rewrite Zle_Qle in Hhw. exact Hhw. }
  assert (Hmono : (crop_area_fraction self * inject_Z (h * w)
                   <= trial_fraction t * inject_Z (h * w))%Q).
  { apply Qmult_le_compat_r; assumption. }
  assert (Hcw : 1 <= nearest_sqrt (trial_fraction t * inject_Z (h * w)
                                   * trial_aspect t)).
  { apply nearest_sqrt_pos.
    apply Qle_trans with (crop_area_fraction self * inject_Z (h * w)
                          * aspect_ratio_low self)%Q; [exact Hc1 |].
    apply Qle_trans with (trial_fraction t * inject_Z (h * w)
                          * aspect_ratio_low self)%Q.
    - apply Qmult_le_compat_r; [exact Hmono | lra].
    - rewrite !(Qmult_comm (trial_fraction t * inject_Z (h * w))).
      apply Qmult_le_compat_r; assumption. }
  assert (Hch : 1 <= nearest_sqrt (trial_fraction t * inject_Z (h * w)
                                   / trial_aspect t)).
  { apply nearest_sqrt_pos. apply Qle_shift_div_l; lra. }
  subst t. unfold spec_trial in *.
  cbn [trial_ww trial_hh trial_fraction trial_aspect] in *.
  destruct (Qltb (0 + (1 - 0) * u3) (1 # 2)); split; assumption.
Qed.

Lemma spec_trials_positive self h w n :
  params_ok self -> candidates_positive self h w -> 0 <= h -> 0 <= w ->
  forall g, tape_ok g ->
    Forall (fun t => 1 <= trial_ww t /\ 1 <= trial_hh t)
           (spec_trials n self h w g).
Proof.
  intros Hp Hc Hh Hw. induction n as [| n IH]; intros g Hg; [constructor |].
  cbn [spec_trials].
  destruct (raw g) as [u1 g1] eqn:E1.
  destruct (raw g1) as [u2 g2] eqn:E2.
  destruct (raw g2) as [u3 g3] eqn:E3.
  destruct (raw_bounds _ _ _ Hg E1) as (Hu1 & Hu1' & Hg1).
  destruct (raw_bounds _ _ _ Hg1 E2) as (Hu2 & Hu2' & Hg2).
  destruct (raw_bounds _ _ _ Hg2 E3) as (_ & _ & Hg3).
  constructor; [| apply IH; exact Hg3].
  apply spec_trial_positive; assumption.
Qed.

End CropSearch.

Section OutputShape.

Variable interp : image -> Z -> Z -> Z -> Z -> pixel.

(** A fitting candidate with positive sides is cropped and resized to the
    target square. *)
Lemma crop_and_resize_shape self img h w t g :
  has_shape img h w -> 1 <= h -> 1 <= w ->
  1 <= trial_ww t -> trial_ww t <= w ->
  1 <= trial_hh t -> trial_hh t <= h ->
  1 <= target_shape self -> tape_ok g ->
  exists out g',
    crop_and_resize interp self img t g = Ok (out, g') /\
    has_shape out (target_shape self) (target_shape self).
Proof.
  intros Hs Hh Hw Hw1 Hw2 Hh1 Hh2 Ht Hg.
  assert (Eh : height img = h) by (destruct Hs as [E _]; exact E).
  assert (Ew : width img = w) by (apply (has_shape_width _ _ _ Hs); lia).
  unfold crop_and_resize, abind. rewrite Eh, Ew.
  destruct (spec_offset_range (w - trial_ww t) g ltac:(lia) Hg)
    as (x1 & g1 & -> & Hx1 & Hg1).
  destruct (spec_offset_range (h - trial_hh t) g1 ltac:(lia) Hg1)
    as (y1 & g2 & -> & Hy1 & Hg2).
  pose proof (crop_shape img h w y1 (y1 + trial_hh t) x1 (x1 + trial_ww t) Hs
                ltac:(lia) ltac:(lia) ltac:(lia)
                ltac:(lia) ltac:(lia) ltac:(lia)) as Hc.
  replace (y1 + trial_hh t - y1) with (trial_hh t) in Hc by lia.
  replace (x1 + trial_ww t - x1) with (trial_ww t) in Hc by lia.
  set (c := crop img y1 (y1 + trial_hh t) x1 (x1 + trial_ww t)) in *.
  assert (Ech : height c = trial_hh t) by (destruct Hc as [E _]; exact E).
  assert (Ecw : width c = trial_ww t)
    by (apply (has_shape_width _ _ _ Hc); lia).
  destruct (cv2_resize_shape interp c (target_shape self) (target_shape self)
              ltac:(lia) ltac:(lia) Ht Ht) as (out & Hout & Hshape).
  rewrite Hout. cbn [lift_result]. unfold aret.
  exists out, g2. split; [reflexivity | exact Hshape].
Qed.

(** Whatever an accepted trial returns is the target square. *)
Lemma crop_and_resize_ok_shape self img t g out g' :
  crop_and_resize interp self img t g = Ok (out, g') ->
  has_shape out (target_shape self) (target_shape self).
Proof.
  unfold crop_and_resize, abind, aret.
  destruct (spec_offset _ g) as [[x1 g1] | e]; [| discriminate].
  destruct (spec_offset _ g1) as [[y1 g2] | e]; [| discriminate].
  destruct (cv2_resize interp _ _) as [o |] eqn:E; cbn [lift_result];
    [| discriminate].
  intros H. inversion H; subst.
  apply (cv2_resize_ok_shape interp _ _ _ _ E).
Qed.

(** The centre crop of an image that is at least as large as the crop. *)
Lemma CenterCrop_shape img h w t :
  has_shape img h w -> 1 <= t -> t <= h -> t <= w ->
  has_shape (CenterCrop_augment (t, t) img) t t.
Proof.
  intros Hs Ht Hh Hw.
  assert (Eh : height img = h) by (destruct Hs as [E _]; exact E).
  assert (Ew : width img = w) by (apply (has_shape_width _ _ _ Hs); lia).
  unfold CenterCrop_augment. cbn [fst snd]. rewrite Eh, Ew.
  destruct (py_int_half (h - t) ltac:(lia)) as [Hh0 Hh1].
  destruct (py_int_half (w - t) ltac:(lia)) as [Hw0 Hw1].
  set (h0 := py_int (inject_Z (h - t) * (1 # 2))) in *.
  set (w0 := py_int (inject_Z (w - t) * (1 # 2))) in *.
  pose proof (crop_shape img h w h0 (h0 + t) w0 (w0 + t) Hs
                ltac:(lia) ltac:(lia) ltac:(lia)
                ltac:(lia) ltac:(lia) ltac:(lia)) as Hc.
  replace (h0 + t - h0) with t in Hc by lia.
  replace (w0 + t - w0) with t in Hc by lia.
  exact Hc.
Qed.

(** Resize-shortest-edge brings the shorter side to [size] and keeps the
    longer one at least as long. *)
Lemma ResizeShortestEdge_shape size img h w :
  has_shape img h w -> 1 <= h -> 1 <= w -> 1 <= size ->
  exists out newh neww,
    ResizeShortestEdge_augment interp size img = Ok out /\
    has_shape out newh neww /\ size <= newh /\ size <= neww /\
    Z.min newh neww = size.
Proof.
  intros Hs Hh Hw Ht.
  assert (Eh : height img = h) by (destruct Hs as [E _]; exact E).
  assert (Ew : width img = w) by (apply (has_shape_width _ _ _ Hs); lia).
  unfold ResizeShortestEdge_augment, rbind, py_fdiv. rewrite Eh, Ew.
  destruct (Qeq_bool (inject_Z (Z.min h w)) 0) eqn:Ez.
  { apply Qeq_bool_iff in Ez. unfold Qeq in Ez. cbn in Ez. lia. }
  destruct (Z.ltb_spec h w) as [Hlt | Hge].
  - rewrite Z.min_l by lia.
    pose proof (py_int_lower size _ ltac:(lia)
                  (scale_lower size h w ltac:(lia) Hh ltac:(lia))) as Hn.
    set (neww := py_int (inject_Z size * 1 / inject_Z h * inject_Z w
                         + (1 # 2))) in *.
    destruct (cv2_resize_shape interp img neww size
                ltac:(lia) ltac:(lia) ltac:(lia) Ht) as (out & Hout & Hshape).
    exists out, size, neww. rewrite Hout.
    repeat (split; [first [reflexivity | assumption | lia] |]). lia.
  - rewrite Z.min_r by lia.
    pose proof (py_int_lower size _ ltac:(lia)
                  (scale_lower size w h ltac:(lia) Hw ltac:(lia))) as Hn.
    set (newh := py_int (inject_Z size * 1 / inject_Z w * inject_Z h
                         + (1 # 2))) in *.
    destruct (cv2_resize_shape interp img size newh
                ltac:(lia) ltac:(lia) Ht ltac:(lia)) as (out & Hout & Hshape).
    exists out, newh, size. rewrite Hout.
    repeat (split; [first [reflexivity | assumption | lia] |]). lia.
Qed.

(** The fallback always yields the target square and draws nothing. *)
Lemma GoogleNetResize_fallback_shape self img h w g :
  has_shape img h w -> 1 <= h -> 1 <= w -> 1 <= target_shape self ->
  exists out,
    GoogleNetResize_fallback interp self img g = Ok (out, g) /\
    has_shape out (target_shape self) (target_shape self).
Proof.
  intros Hs Hh Hw Ht.
  destruct (ResizeShortestEdge_shape (target_shape self) img h w Hs Hh Hw Ht)
    as (out & newh & neww & Hout & Hshape & Hnh & Hnw & _).
  unfold GoogleNetResize_fallback, abind. rewrite Hout. cbn [lift_result].
  unfold aret. eexists. split; [reflexivity |].
  apply (CenterCrop_shape out newh neww); assumption.
Qed.

End OutputShape.

(** ** The fallback, step by step *)

Lemma py_int_floor x : (0 <= x)%Q -> py_int x = Qfloor x.
Proof.
  intros H. unfold py_int. destruct x as [a d]. unfold Qle in H. cbn in *.
  apply Z.quot_div_nonneg; lia.
Qed.

(** [int(scale * w + 0.5)] for [scale = t * 1.0 / m] is the nearest integer
    to [t * w / m]. *)
Lemma round_scaled (t m w : Z) :
  0 <= t -> 1 <= m -> 0 <= w ->
  let n := py_int (inject_Z t * 1 / inject_Z m * inject_Z w + (1 # 2)) in
  2 * t * w - m < 2 * n * m /\ 2 * n * m <= 2 * t * w + m.
Proof.
  intros Ht Hm Hw n.
  assert (HT : (0 <= inject_Z t)%Q) by (rewrite Zle_Qle in Ht; exact Ht).
  assert (HM : (1 <= inject_Z m)%Q) by (rewrite Zle_Qle in Hm; exact Hm).
  assert (HW : (0 <= inject_Z w)%Q) by (rewrite Zle_Qle in Hw; exact Hw).
  set (x := (inject_Z t * 1 / inject_Z m * inject_Z w + (1 # 2))%Q) in *.
  assert (Hs0 : (0 <= inject_Z t * 1 / inject_Z m)%Q).
  { unfold Qdiv. apply Qmult_le_0_compat; [lra |].
    apply Qinv_le_0_compat. lra. }
  assert (Hx0 : (0 <= x)%Q).
  { unfold x. pose proof (Qmult_le_0_compat _ _ Hs0 HW). lra. }
  assert (Hn : n = Qfloor x) by (apply py_int_floor; exact Hx0).
  assert (Hlo : (inject_Z n <= x)%Q) by (rewrite Hn; apply Qfloor_le).
  assert (Hhi : (x < inject_Z (n + 1))%Q) by (rewrite Hn; apply Qlt_floor).
  assert (Hx : (x * (2 * inject_Z m)
                == 2 * inject_Z t * inject_Z w + inject_Z m)%Q).
  { unfold x. field. lra. }
  assert (H2m : (0 < 2 * inject_Z m)%Q) by lra.
  assert (A : (inject_Z n * (2 * inject_Z m)
               <= 2 * inject_Z t * inject_Z w + inject_Z m)%Q).
  { rewrite <- Hx. apply Qmult_le_compat_r; lra. }
  assert (B : (2 * inject_Z t * inject_Z w + inject_Z m
               < inject_Z (n + 1) * (2 * inject_Z m))%Q).
  { rewrite <- Hx. apply Qmult_lt_compat_r; lra. }
  assert (A' : n * (2 * m) <= 2 * t * w + m).
  { rewrite Zle_Qle.
    repeat (rewrite inject_Z_plus || rewrite inject_Z_mult). exact A. }
  assert (B' : 2 * t * w + m < (n + 1) * (2 * m)).
  { rewrite Zlt_Qlt.
    repeat (rewrite inject_Z_plus || rewrite inject_Z_mult).
    rewrite inject_Z_plus in B. exact B. }
  lia.
Qed.

Lemma py_int_half_centred t len :
  t <= len -> centred t len (py_int (inject_Z (len - t) * (1 # 2))).
Proof.
  intros H. unfold centred, py_int.
  change (Qnum (inject_Z (len - t) * (1 # 2))) with ((len - t) * 1).
  change (Z.pos (Qden (inject_Z (len - t) * (1 # 2)))) with 2.
  rewrite Z.mul_1_r, Z.quot_div_nonneg by lia.
  pose proof (Z.div_mod (len - t) 2 ltac:(lia)) as Hd.
  pose proof (Z.mod_pos_bound (len - t) 2 ltac:(lia)) as Hr.
  assert (0 <= (len - t) / 2) by (apply Z.div_pos; lia).
  lia.
Qed.

Section FallbackSteps.

Variable interp : image -> Z -> Z -> Z -> Z -> pixel.

(** The fallback resizes the image so that its shortest edge is the target
    and returns the centred target square of the result. *)
Lemma GoogleNetResize_fallback_steps self img h w g :
  has_shape img h w -> 1 <= h -> 1 <= w -> 1 <= target_shape self ->
  exists newh neww resized y0 x0,
    shortest_edge_resized (target_shape self) h w newh neww /\
    cv2_resize interp img (neww, newh) = Ok resized /\
    has_shape resized newh neww /\
    centred (target_shape self) newh y0 /\
    centred (target_shape self) neww x0 /\
    GoogleNetResize_fallback interp self img g
    = Ok (crop resized y0 (y0 + target_shape self)
               x0 (x0 + target_shape self), g) /\
    has_shape (crop resized y0 (y0 + target_shape self)
                    x0 (x0 + target_shape self))
              (target_shape self) (target_shape self).
Proof.
  intros Hs Hh Hw Ht. set (t := target_shape self) in *.
  assert (Eh : height img = h) by (destruct Hs as [E _]; exact E).
  assert (Ew : width img = w) by (apply (has_shape_width _ _ _ Hs); lia).
  assert (Hstep : exists newh neww resized,
             shortest_edge_resized t h w newh neww /\
             t <= newh /\ t <= neww /\
             cv2_resize interp img (neww, newh) = Ok resized /\
             has_shape resized newh neww /\
             ResizeShortestEdge_augment interp t img = Ok resized).
  { unfold ResizeShortestEdge_augment, rbind, py_fdiv. rewrite Eh, Ew.
    destruct (Qeq_bool (inject_Z (Z.min h w)) 0) eqn:Ez.
    { apply Qeq_bool_iff in Ez. unfold Qeq in Ez. cbn in Ez. lia. }
    destruct (Z.ltb_spec h w) as [Hlt | Hge].
    - rewrite Z.min_l by lia.
      destruct (round_scaled t h w ltac:(lia) Hh ltac:(lia)) as [R1 R2].
      pose proof (py_int_lower t _ ltac:(lia)
                    (scale_lower t h w ltac:(lia) Hh ltac:(lia))) as Hn.
      set (neww := py_int (inject_Z t * 1 / inject_Z h * inject_Z w
                           + (1 # 2))) in *.
      destruct (cv2_resize_shape interp img neww t
                  ltac:(lia) ltac:(lia) ltac:(lia) Ht)
        as (out & Hout & Hshape).
      exists t, neww, out. rewrite Hout.
      split;
        [| split; [lia | split; [lia | split; [reflexivity |
           split; [exact Hshape | reflexivity]]]]].
      unfold shortest_edge_resized.
      split; [lia |]. split; [intros _; repeat split; assumption | lia].
    - rewrite Z.min_r by lia.
      destruct (round_scaled t w h ltac:(lia) Hw ltac:(lia)) as [R1 R2].
      pose proof (py_int_lower t _ ltac:(lia)
                    (scale_lower t w h ltac:(lia) Hw ltac:(lia))) as Hn.
      set (newh := py_int (inject_Z t * 1 / inject_Z w * inject_Z h
                           + (1 # 2))) in *.
      destruct (cv2_resize_shape interp img t newh
                  ltac:(lia) ltac:(lia) Ht ltac:(lia))
        as (out & Hout & Hshape).
      exists newh, t, out. rewrite Hout.
      split;
        [| split; [lia | split; [lia | split; [reflexivity |
           split; [exact Hshape | reflexivity]]]]].
      unfold shortest_edge_resized.
      split; [lia |]. split; [lia | intros _; repeat split; assumption]. }
  destruct Hstep as (newh & neww & resized & Hse & Hnh & Hnw & Hres & Hshape
                     & Hrse).
  assert (Erh : height resized = newh) by (destruct Hshape as [E _]; exact E).
  assert (Erw : width resized = neww)
    by (apply (has_shape_width _ _ _ Hshape); lia).
  pose proof (py_int_half_centred t newh Hnh) as Hcy.
  pose proof (py_int_half_centred t neww Hnw) as Hcx.
  set (y0 := py_int (inject_Z (newh - t) * (1 # 2))) in *.
  set (x0 := py_int (inject_Z (neww - t) * (1 # 2))) in *.
  exists newh, neww, resized, y0, x0.
  split; [exact Hse |]. split; [exact Hres |]. split; [exact Hshape |].
  split; [exact Hcy |]. split; [exact Hcx |]. split.
  - unfold GoogleNetResize_fallback, abind. fold t. rewrite Hrse.
    cbn [lift_result]. unfold aret, CenterCrop_augment. cbn [fst snd].
    rewrite Erh, Erw. reflexivity.
  - unfold centred in Hcy, Hcx.
    pose proof (crop_shape resized newh neww y0 (y0 + t) x0 (x0 + t) Hshape
                  ltac:(lia) ltac:(lia) ltac:(lia)
                  ltac:(lia) ltac:(lia) ltac:(lia)) as Hc.
    replace (y0 + t - y0) with t in Hc by lia.
    replace (x0 + t - x0) with t in Hc by lia.
    exact Hc.
Qed.

End FallbackSteps.

(** ** [GoogleNetResize._augment] *)

Lemma find_index_first {A} (p : A -> bool) l d :
  forall k, find_index p l = Some k ->
            forall j, (j < k)%nat -> p (nth j l d) = false.
Proof.
  induction l as [| x l IH]; intros k H j Hj; [discriminate |].
  cbn in H. destruct (p x) eqn:Ex.
  - inversion H; subst. lia.
  - destruct (find_index p l) as [k' |] eqn:E; [| discriminate].
    cbn in H. inversion H; subst.
    destruct j as [| j]; [exact Ex |].
    cbn. apply (IH k' eq_refl). lia.
Qed.

Lemma find_index_None {A} (p : A -> bool) l :
  find_index p l = None -> Forall (fun x => p x = false) l.
Proof.
  induction l as [| x l IH]; intros H; [constructor |].
  cbn in H. destruct (p x) eqn:Ex; [discriminate |].
  destruct (find_index p l); [discriminate |].
  constructor; [exact Ex | apply IH; reflexivity].
Qed.

Lemma params_ok_default : params_ok GoogleNetResize_default.
Proof. unfold params_ok. cbn. repeat split; lra. Qed.

(** With the default parameters, five pixels are enough for every candidate
    side to be positive. *)
Lemma candidates_positive_default h w :
  5 <= h * w -> candidates_positive GoogleNetResize_default h w.
Proof.
  intros H. unfold candidates_positive. cbn.
  assert (H5 : (5 <= inject_Z (h * w))%Q).
  { change 5%Q with (inject_Z 5). rewrite <- Zle_Qle. exact H. }
  split; lra.
Qed.

Lemma tape_ok_sample : tape_ok sample_tape.
Proof. unfold tape_ok, sample_tape. repeat constructor; lra. Qed.

(** C2 (as amended): on an image with at least one row and one column,
    whatever [_augment] returns is exactly [target_shape] by [target_shape],
    on every tape of draws, whether a trial is accepted or the fallback is
    taken; and it does return when no candidate side can round to zero
    (with the default parameters: when the image has at least five
    pixels). *)
Theorem GoogleNetResize_output_shape interp self img h w g :
  has_shape img h w -> 1 <= h -> 1 <= w ->
  1 <= target_shape self ->
  params_ok self ->
  tape_ok g ->
  (forall out g',
     GoogleNetResize_augment interp self img g = Ok (out, g') ->
     has_shape out (target_shape self) (target_shape self)) /\
  (candidates_positive self h w ->
   exists out g',
     GoogleNetResize_augment interp self img g = Ok (out, g') /\
     has_shape out (target_shape self) (target_shape self)).
Proof.
  intros Hs Hh Hw Ht Hp Hg.
  assert (Eh : height img = h) by (destruct Hs as [E _]; exact E).
  assert (Ew : width img = w) by (apply (has_shape_width _ _ _ Hs); lia).
  unfold GoogleNetResize_augment.
  rewrite (GoogleNetResize_loop_is_search interp self img 10 Hp g Hg).
  unfold spec_search. rewrite Eh, Ew.
  set (trials := spec_trials 10 self h w g).
  destruct (GoogleNetResize_fallback_shape interp self img h w
              (skipn (3 * 10) g) Hs Hh Hw Ht) as (fb & Hfb & Hfbshape).
  destruct (find_index (fits h w) trials) as [k |] eqn:Ek.
  - split.
    + intros out g' H.
      apply (crop_and_resize_ok_shape interp self img _ _ _ _ H).
    + intros Hc.
      pose proof (spec_trials_positive self h w 10 Hp Hc ltac:(lia)
                    ltac:(lia) g Hg) as Hpos.
      fold trials in Hpos.
      destruct (find_index_Some _ _ (mkTrial 0 0 false 0 0) k Ek)
        as [Hk Hfit].
      set (t := nth k trials (mkTrial 0 0 false 0 0)) in *.
      assert (Ht12 : 1 <= trial_ww t /\ 1 <= trial_hh t).
      { apply (proj1 (Forall_nth _ trials) Hpos k _ Hk). }
      unfold fits in Hfit. apply andb_true_iff in Hfit.
      destruct Hfit as [Hf1 Hf2]. apply Z.leb_le in Hf1, Hf2.
      apply (crop_and_resize_shape interp self img h w t); try assumption;
        try lia.
      apply tape_ok_skipn. exact Hg.
  - rewrite Hfb. split.
    + intros out g' H. inversion H; subst. exact Hfbshape.
    + intros _. exists fb, (skipn (3 * 10) g). split; [reflexivity | exact Hfbshape].
Qed.

(** C3: on well-formed parameters, [_augment] is the search over ten trials
    read off the tape, each with its fraction in
    [crop_area_fraction, 1] and its aspect ratio in
    [aspect_ratio_low, aspect_ratio_high], swapped when its third draw is
    below one half: the first candidate that fits is cropped at a drawn
    offset inside the image and resized to the target. Without a fitting
    candidate among the ten, after the thirty draws, the image is resized so
    that its shortest edge is the target, and the centred target square of
    the result is returned. *)
Theorem GoogleNetResize_augment_first_fit interp self img g :
  params_ok self -> tape_ok g ->
  let h := height img in
  let w := width img in
  let t := target_shape self in
  let trials := spec_trials 10 self h w g in
  GoogleNetResize_augment interp self img g = spec_augment interp self img g /\
  length trials = 10%nat /\
  Forall (fun t =>
            (crop_area_fraction self <= trial_fraction t)%Q /\
            (trial_fraction t <= 1)%Q /\
            (aspect_ratio_low self <= trial_aspect t)%Q /\
            (trial_aspect t <= aspect_ratio_high self)%Q) trials /\
  (forall u1 u2 u3,
     trial_swap (spec_trial self h w u1 u2 u3) = Qltb u3 (1 # 2)) /\
  (forall room g0, 0 <= room -> tape_ok g0 ->
     exists x g', spec_offset room g0 = Ok (x, g') /\ 0 <= x <= room) /\
  match find_index (fits h w) trials with
  | Some k =>
      (k < 10)%nat /\
      fits h w (nth k trials (mkTrial 0 0 false 0 0)) = true /\
      (forall j, (j < k)%nat ->
                 fits h w (nth j trials (mkTrial 0 0 false 0 0)) = false) /\
      GoogleNetResize_augment interp self img g
      = crop_and_resize interp self img
          (nth k trials (mkTrial 0 0 false 0 0)) (skipn (3 * (k + 1)) g)
  | None =>
      Forall (fun t => fits h w t = false) trials /\
      GoogleNetResize_augment interp self img g
      = GoogleNetResize_fallback interp self img (skipn 30 g) /\
      (has_shape img h w -> 1 <= h -> 1 <= w -> 1 <= t ->
       exists newh neww resized y0 x0,
         shortest_edge_resized t h w newh neww /\
         cv2_resize interp img (neww, newh) = Ok resized /\
         has_shape resized newh neww /\
         centred t newh y0 /\ centred t neww x0 /\
         GoogleNetResize_augment interp self img g
         = Ok (crop resized y0 (y0 + t) x0 (x0 + t), skipn 30 g) /\
         has_shape (crop resized y0 (y0 + t) x0 (x0 + t)) t t)
  end.
Proof.
  intros Hp Hg h w t trials.
  assert (Heq : GoogleNetResize_augment interp self img g
                = spec_augment interp self img g).
  { apply GoogleNetResize_loop_is_search; assumption. }
  assert (Hlen : length trials = 10%nat) by apply spec_trials_length.
  split; [exact Heq |]. split; [exact Hlen |]. split.
  { apply spec_trials_ranges; try assumption.
    - apply height_nonneg.
    - apply width_nonneg. }
  split.
  { intros u1 u2 u3. unfold spec_trial. cbn [trial_swap].
    apply Qltb_compat, uniform01_raw. }
  split.
  { intros room g0 Hroom Hg0.
    destruct (spec_offset_range room g0 Hroom Hg0) as (x & g' & Hx & Hr & _).
    exists x, g'. split; assumption. }
  rewrite Heq. unfold spec_augment, spec_search. fold h w trials.
  destruct (find_index (fits h w) trials) as [k |] eqn:Ek.
  - destruct (find_index_Some _ _ (mkTrial 0 0 false 0 0) k Ek) as [Hk Hfit].
    split; [lia |]. split; [exact Hfit |]. split; [| reflexivity].
    apply (find_index_first _ _ _ k Ek).
  - split; [apply find_index_None; exact Ek |]. split; [reflexivity |].
    intros Hs Hh Hw Ht.
    destruct (GoogleNetResize_fallback_steps interp self img h w
                (skipn (3 * 10) g) Hs Hh Hw Ht)
      as (newh & neww & resized & y0 & x0 & H1 & H2 & H3 & H4 & H5 & H6 & H7).
    exists newh, neww, resized, y0, x0.
    repeat (split; [assumption |]). exact H7.
Qed.

(** ** Instances on sample inputs *)

Lemma has_shape_strip : has_shape strip_image 1 5.
Proof. split; [reflexivity | repeat constructor]. Qed.

Lemma has_shape_tiny : has_shape tiny_image 1 1.
Proof. split; [reflexivity | repeat constructor]. Qed.

(** The one-pixel image, default parameters: the first trial's candidate is
    0 by 0, it is accepted, and resizing the empty crop raises. *)
Lemma GoogleNetResize_tiny_image_raises :
  has_shape tiny_image 1 1 /\
  tape_ok sample_tape /\
  map (fun t => (trial_ww t, trial_hh t))
      (spec_trials 1 GoogleNetResize_default 1 1 sample_tape) = [(0, 0)] /\
  GoogleNetResize_augment flat_interp GoogleNetResize_default tiny_image
                          sample_tape
  = Raise cv2_error /\
  ~ (exists out g',
       GoogleNetResize_augment flat_interp GoogleNetResize_default tiny_image
                               sample_tape
       = Ok (out, g') /\
       has_shape out 224 224).
Proof.
  assert (E : GoogleNetResize_augment flat_interp GoogleNetResize_default
                tiny_image sample_tape = Raise cv2_error)
    by (vm_compute; reflexivity).
  split; [exact has_shape_tiny |]. split; [exact tape_ok_sample |].
  split; [vm_compute; reflexivity |]. split; [exact E |].
  intros (out & g' & H & _). rewrite E in H. discriminate.
Qed.

Lemma GoogleNetResize_output_shape_strip :
  exists out g',
    GoogleNetResize_augment flat_interp GoogleNetResize_default strip_image
                            sample_tape
    = Ok (out, g') /\
    has_shape out 224 224.
Proof.
  refine (proj2 (GoogleNetResize_output_shape flat_interp
                   GoogleNetResize_default strip_image 1 5 sample_tape
                   has_shape_strip _ _ _ params_ok_default tape_ok_sample)
                _).
  - lia.
  - lia.
  - cbn. lia.
  - apply candidates_positive_default. lia.
Defined.

Lemma GoogleNetResize_augment_first_fit_strip :
  GoogleNetResize_augment flat_interp GoogleNetResize_default strip_image
                          sample_tape
  = spec_augment flat_interp GoogleNetResize_default strip_image sample_tape.
Proof.
  exact (proj1 (GoogleNetResize_augment_first_fit flat_interp
                  GoogleNetResize_default strip_image sample_tape
                  params_ok_default tape_ok_sample)).
Defined.

(** The tall image on the wide tape: no trial fits and the fallback yields
    the target square. *)
Example GoogleNetResize_fallback_taken :
  find_index (fits 40 2)
             (spec_trials 10 GoogleNetResize_default 40 2 wide_tape) = None /\
  match GoogleNetResize_augment flat_interp GoogleNetResize_default
                                tall_image wide_tape with
  | Ok (out, g') => (height out, width out, g') = (224, 224, [])
  | Raise _ => False
  end.
Proof. split; vm_compute; reflexivity. Qed.

Lemma split_index_checked_3 :
  get_val_dataflow flat_interp no_color sample_index sample_imread 8
    (Some "imagenet"%string) 2 (PyList (fbresnet_augmentor false)) None
    (Some 3) (Some 3)
  = ([], Raise AssertionError) /\
  exists log ds,
    get_val_dataflow flat_interp no_color sample_index sample_imread 8
      (Some "imagenet"%string) 2 (PyList (fbresnet_augmentor false)) None
      (Some 3) (Some 2)
    = (Construct "ILSVRC12Files"
         :: LogInfo "Number of validation data = {}" [3] :: log,
       Ok ds).
Proof.
  split.
  - apply (proj1 (split_index_checked flat_interp no_color sample_index
                    sample_imread 8 (Some "imagenet"%string) 2
                    (PyList (fbresnet_augmentor false)) None 3 3)).
    lia.
  - destruct (proj2 (split_index_checked flat_interp no_color sample_index
                       sample_imread 8 (Some "imagenet"%string) 2
                       (PyList (fbresnet_augmentor false)) None 3 2)
                ltac:(lia) "imagenet"%string (fbresnet_augmentor false)
                eq_refl eq_refl)
      as (log & r & Heq & _ & _ & Hok).
    destruct (Hok ltac:(lia) ltac:(vm_compute; discriminate)
                  ltac:(vm_compute; reflexivity) ltac:(lia)) as [ds ->].
    exists log, ds. exact Heq.
Defined.

Lemma sample_dataflow_returned :
  get_val_dataflow flat_interp no_color sample_index sample_imread 8
    (Some "imagenet"%string) 2 (PyList (fbresnet_augmentor false)) None
    None None
  = ([Construct "ILSVRC12Files"; Construct "AugmentorList";
      Construct "MultiThreadMapData"; Construct "BatchData"],
     Ok sample_dataflow).
Proof. reflexivity. Qed.


Lemma plain_dataflow_returned :
  get_val_dataflow flat_interp no_color sample_index sample_imread 8
    (Some "imagenet"%string) 2 (PyList []) None None None
  = ([Construct "ILSVRC12Files"; Construct "AugmentorList";
      Construct "MultiThreadMapData"; Construct "BatchData"],
     Ok plain_dataflow).
Proof. reflexivity. Qed.

(** A pass of the strict map stage that is not in input order: the samples
    labelled 7, 3, 7 reach the batcher as 3, 7, 7. *)
Lemma strict_stage_out_of_order :
  get_val_dataflow flat_interp no_color sample_index sample_imread 8
    (Some "imagenet"%string) 2 (PyList []) None None None
  = ([Construct "ILSVRC12Files"; Construct "AugmentorList";
      Construct "MultiThreadMapData"; Construct "BatchData"],
     Ok plain_dataflow) /\
  strict (batch_ds plain_dataflow) = true /\
  map snd (get_data sample_index (map_ds (batch_ds plain_dataflow)))
  = [7; 3; 7] /\
  MultiThreadMapData_completes sample_index (batch_ds plain_dataflow) []
    [(strip_image, 3); (strip_image, 7); (strip_image, 7)] /\
  ~ MultiThreadMapData_yields sample_index (batch_ds plain_dataflow) []
      [(strip_image, 3); (strip_image, 7); (strip_image, 7)].
Proof.
  split; [reflexivity |]. split; [reflexivity |]. split; [reflexivity |].
  split.
  - exists [(strip_image, 7); (strip_image, 3); (strip_image, 7)], [].
    split; [reflexivity |]. cbn. apply perm_swap.
  - intros (l & g' & Hrun & Hout). cbn in Hrun, Hout.
    rewrite <- Hout in Hrun. discriminate Hrun.
Qed.

Lemma batching_keeps_remainder_3_by_2 :
  let stream := [(tiny_image, 7); (strip_image, 3); (tiny_image, 7)] in
  let bs := BatchData_get_data 2 true stream in
  Z.of_nat (length bs) = 2 /\
  map batch_len bs = [2; 1] /\
  concat (map snd bs) = [7; 3; 7].
Proof.
  intros stream bs.
  destruct (batching_keeps_remainder flat_interp no_color sample_index
              sample_imread 8 _ _ _ _ _ _ _ _ stream
              sample_dataflow_returned ltac:(lia) ltac:(cbn; lia))
    as (Hn & _ & _ & _ & Hl & _).
  split; [exact Hn |]. split; [reflexivity | exact Hl].
Defined.

Lemma labels_preserved_sample :
  exists log ds,
    get_val_dataflow flat_interp no_color sample_index sample_imread 8
      (Some "imagenet"%string) 2 (PyList [AugFlip (1 # 2)]) None None None
    = (log, Ok ds) /\
    map_func (batch_ds ds) ("a.jpg"%string, 7) [1 # 4]%Q
    = Ok ((cv2_flip_horiz strip_image, 7), []).
Proof.
  eexists. eexists. split; [reflexivity |].
  destruct (labels_preserved flat_interp no_color sample_index sample_imread
              8 (Some "imagenet"%string) 2 (PyList [AugFlip (1 # 2)])
              None None None _ _ eq_refl)
    as (l & Hl & _ & H & _).
  injection Hl as <-.
  apply (H "a.jpg"%string 7 [1 # 4]%Q strip_image); reflexivity.
Defined.

Lemma eval_ratio_exact_two_batches :
  eval_on_ILSVRC12 [([true; false], [false; false]); ([true], [true])]
  = [ ("Top1 Error: {}"%string, (inject_Z 2 * 1 / inject_Z 3)%Q);
      ("Top5 Error: {}"%string, (inject_Z 1 * 1 / inject_Z 3)%Q) ].
Proof.
  refine (proj1 (proj2 (eval_ratio_exact
                   [([true; false], [false; false]); ([true], [true])]
                   _ _))).
  - discriminate.
  - repeat constructor; cbn; lia.
Defined.

Lemma flip_twice_forced :
  (im <- Flip_augment (1 # 2) strip_image ;; Flip_augment (1 # 2) im)%aug
    [1 # 4; 1 # 3; 9 # 10]%Q
  = Ok (strip_image, [9 # 10]%Q).
Proof.
  apply (proj1 (proj2 (proj2 (proj2 (flip_twice_is_identity strip_image)))));
    reflexivity.
Defined.

(** The one-row image mirrored: its five pixels in reverse order. *)
Example cv2_flip_horiz_strip :
  cv2_flip_horiz strip_image
  = [[BGR 5 5 5; BGR 4 4 4; BGR 3 3 3; BGR 2 2 2; BGR 1 1 1]].
Proof. reflexivity. Qed.

(** * Further properties of the code *)

(** ** Arguments and edge cases of [get_val_dataflow] *)

Section DataflowEdges.

Variable interp : image -> Z -> Z -> Z -> Z -> pixel.
Variable color_augment : list ColorAug -> image -> Aug image.
Variable dataset_index : string -> string -> list datapoint.
Variable imread : string -> option image.
Variable cpu_count : Z.

(** X1: without a data directory, or with augmentors that are not a list,
    the call raises [AssertionError] before anything is constructed or
    logged, whatever the other arguments. *)
Theorem get_val_dataflow_bad_arguments datadir bs augs parallel ns si :
  datadir = None \/ augs = PyOther ->
  get_val_dataflow interp color_augment dataset_index imread cpu_count
    datadir bs augs parallel ns si
  = ([], Raise AssertionError).
Proof.
  intros [-> | ->]; unfold get_val_dataflow; [reflexivity |].
  destruct datadir; reflexivity.
Qed.

(** X2: [num_splits = 0] with a negative [split_index] passes the assertion;
    the file list is read and its length logged, and the division then
    raises [ZeroDivisionError] before any shard is built. *)
Theorem zero_splits_divide_by_zero d bs l parallel i :
  i < 0 ->
  get_val_dataflow interp color_augment dataset_index imread cpu_count
    (Some d) bs (PyList l) parallel (Some 0) (Some i)
  = ([Construct "ILSVRC12Files";
      LogInfo "Number of validation data = {}"
              [Z.of_nat (length (dataset_index d "val"))]],
     Raise ZeroDivisionError).
Proof.
  intros Hi. unfold get_val_dataflow, py_assert.
  destruct (Z.ltb_spec i 0) as [_ | H]; [reflexivity | lia].
Qed.

End DataflowEdges.

(** ** Shards of the file list *)

Lemma firstn_add {A} (n m : nat) :
  forall l : list A, firstn (n + m) l = firstn n l ++ firstn m (skipn n l).
Proof.
  induction n as [| n IH]; intros l; [reflexivity |].
  destruct l as [| x l]; cbn [Nat.add firstn skipn app].
  - now rewrite firstn_nil.
  - now rewrite IH.
Qed.

Lemma concat_blocks {A} (q : nat) (l : list A) m :
  concat (map (fun j => firstn q (skipn (q * j) l)) (seq 0 m))
  = firstn (q * m) l.
Proof.
  induction m as [| m IH].
  - rewrite Nat.mul_0_r. reflexivity.
  - rewrite seq_S, map_app, concat_app, IH. cbn [map concat Nat.add].
    rewrite app_nil_r.
    replace (q * S m)%nat with (q * m + q)%nat by lia.
    symmetry. apply firstn_add.
Qed.

Lemma shard_files_block {A} (files : list A) k i :
  0 < k -> 0 <= i < k ->
  shard_files files k i
  = firstn (Z.to_nat (Z.of_nat (length files) / k))
           (skipn (Z.to_nat (Z.of_nat (length files) / k) * Z.to_nat i)
                  files).
Proof.
  intros Hk Hi. unfold shard_files.
  set (N := Z.of_nat (length files)).
  assert (HN : 0 <= N) by (unfold N; lia).
  rewrite shard_range_eq by assumption.
  assert (Hq : 0 <= N / k) by (apply Z.div_pos; lia).
  assert (Hm : k * (N / k) <= N) by (apply Z.mul_div_le; lia).
  unfold py_slice, py_clip. fold N.
  destruct (Z.ltb_spec (N / k * i) 0) as [H | _]; [nia |].
  destruct (Z.ltb_spec (N / k * (i + 1)) 0) as [H | _]; [nia |].
  rewrite !Z.min_l by nia.
  replace (N / k * (i + 1) - N / k * i) with (N / k) by lia.
  rewrite Z2Nat.inj_mul by lia. reflexivity.
Qed.


(** X3: for [0 <= split_index < num_splits] the shard is the contiguous
    block of exactly [N // num_splits] files that starts at index
    [(N // num_splits) * split_index], in the order of the file list. *)
Theorem shard_is_contiguous_block {A} (files : list A) k i :
  0 < k -> 0 <= i < k ->
  let q := Z.of_nat (length files) / k in
  shard_files files k i
  = firstn (Z.to_nat q) (skipn (Z.to_nat (q * i)) files) /\
  Z.of_nat (length (shard_files files k i)) = q.
Proof.
  intros Hk Hi q.
  assert (Hq : 0 <= q) by (apply Z.div_pos; lia).
  assert (Hm : k * q <= Z.of_nat (length files))
    by (apply Z.mul_div_le; lia).
  rewrite shard_files_block by assumption. fold q.
  rewrite <- Z2Nat.inj_mul by lia. split; [reflexivity |].
  rewrite length_firstn, length_skipn. nia.
Qed.

(** X4: the shards of all split indices, one after the other, are the first
    [(N // num_splits) * num_splits] files: no file appears twice, the order
    is kept, and the last [N mod num_splits] files are in no shard. *)
Theorem shards_concat_is_prefix {A} (files : list A) k :
  0 < k ->
  concat (map (shard_files files k) (zrange k))
  = firstn (Z.to_nat (Z.of_nat (length files) / k * k)) files /\
  Z.of_nat (length (concat (map (shard_files files k) (zrange k))))
  = Z.of_nat (length files) - Z.of_nat (length files) mod k.
Proof.
  intros Hk.
  set (N := Z.of_nat (length files)).
  assert (Hq : 0 <= N / k) by (apply Z.div_pos; unfold N; lia).
  assert (Hc : concat (map (shard_files files k) (zrange k))
               = firstn (Z.to_nat (N / k * k)) files).
  { unfold zrange. rewrite map_map.
    rewrite (map_ext_in _ (fun j => firstn (Z.to_nat (N / k))
                                      (skipn (Z.to_nat (N / k) * j) files))).
    - rewrite concat_blocks. f_equal.
      rewrite Z2Nat.inj_mul by lia. reflexivity.
    - intros j Hj. apply in_seq in Hj.
      rewrite shard_files_block by lia. fold N.
      rewrite Nat2Z.id. reflexivity. }
  split; [exact Hc |]. rewrite Hc, length_firstn.
  pose proof (Z.div_mod N k ltac:(lia)) as Hd.
  pose proof (Z.mod_pos_bound N k Hk) as Hr.
  fold N. nia.
Qed.

(** X5: whatever the split index, negative ones included, a shard never
    holds more than [N // num_splits] files. *)
Theorem shard_never_larger {A} (files : list A) k i :
  0 < k ->
  Z.of_nat (length (shard_files files k i)) <= Z.of_nat (length files) / k.
Proof.
  intros Hk. unfold shard_files, shard_range.
  set (N := Z.of_nat (length files)).
  assert (Hq : 0 <= N / k) by (apply Z.div_pos; unfold N; lia).
  set (q := N / k) in *.
  unfold py_slice, py_clip. fold N.
  rewrite length_firstn, length_skipn.
  destruct (Z.ltb_spec (q * i) 0), (Z.ltb_spec (Z.min (q * (i + 1)) N) 0);
    nia.
Qed.

(** ** Augmentor lists *)

Lemma cv2_flip_horiz_shape img h w :
  has_shape img h w -> has_shape (cv2_flip_horiz img) h w.
Proof.
  unfold has_shape, height, cv2_flip_horiz. intros [Hh Hw]. split.
  - now rewrite length_map.
  - apply Forall_map. eapply Forall_impl; [| exact Hw].
    cbn. intros row Hrow. now rewrite length_rev.
Qed.

Lemma Flip_augment_shape prob img h w g :
  has_shape img h w ->
  exists out g', Flip_augment prob img g = Ok (out, g') /\ has_shape out h w.
Proof.
  intros Hs. unfold Flip_augment, abind, lift_draw, aret.
  destruct (rng_uniform 0 1 g) as [u g'].
  exists (if Qltb u prob then cv2_flip_horiz img else img), g'.
  split; [reflexivity |].
  destruct (Qltb u prob); [apply cv2_flip_horiz_shape |]; exact Hs.
Qed.

Section AugmentorLists.

Variable interp : image -> Z -> Z -> Z -> Z -> pixel.
Variable color_augment : list ColorAug -> image -> Aug image.

(** [_augment] returns the target square when no candidate side can round
    to zero. *)
Lemma GoogleNetResize_augment_returns self img h w g :
  has_shape img h w -> 1 <= h -> 1 <= w -> 1 <= target_shape self ->
  params_ok self -> candidates_positive self h w -> tape_ok g ->
  exists out g',
    GoogleNetResize_augment interp self img g = Ok (out, g') /\
    has_shape out (target_shape self) (target_shape self).
Proof.
  intros Hs Hh Hw Ht Hp Hc Hg.
  assert (Eh : height img = h) by (destruct Hs as [E _]; exact E).
  assert (Ew : width img = w) by (apply (has_shape_width _ _ _ Hs); lia).
  unfold GoogleNetResize_augment.
  rewrite (GoogleNetResize_loop_is_search interp self img 10 Hp g Hg).
  unfold spec_search. rewrite Eh, Ew.
  pose proof (spec_trials_positive self h w 10 Hp Hc ltac:(lia) ltac:(lia)
                g Hg) as Hpos.
  set (trials := spec_trials 10 self h w g) in *.
  destruct (find_index (fits h w) trials) as [k |] eqn:Ek.
  - destruct (find_index_Some _ _ (mkTrial 0 0 false 0 0) k Ek) as [Hk Hfit].
    set (t := nth k trials (mkTrial 0 0 false 0 0)) in *.
    assert (Ht12 : 1 <= trial_ww t /\ 1 <= trial_hh t).
    { apply (proj1 (Forall_nth _ trials) Hpos k _ Hk). }
    unfold fits in Hfit. apply andb_true_iff in Hfit.
    destruct Hfit as [Hf1 Hf2]. apply Z.leb_le in Hf1, Hf2.
    apply (crop_and_resize_shape interp self img h w t); try assumption;
      try lia.
    apply tape_ok_skipn. exact Hg.
  - destruct (GoogleNetResize_fallback_shape interp self img h w
                (skipn (3 * 10) g) Hs Hh Hw Ht) as (out & Hout & Hshape).
    exists out, (skipn (3 * 10) g). split; assumption.
Qed.


(** X6: the validation augmentors, resize-shortest-edge to 256 and centre
    crop, turn every image with at least one row and one column into a
    224 by 224 image and draw nothing from the generator. *)
Theorem val_augmentors_shape img h w g :
  has_shape img h w -> 1 <= h -> 1 <= w ->
  exists out,
    AugmentorList_augment interp color_augment (fbresnet_augmentor false)
                          img g
    = Ok (out, g) /\
    has_shape out 224 224.
Proof.
  intros Hs Hh Hw.
  destruct (ResizeShortestEdge_shape interp 256 img h w Hs Hh Hw ltac:(lia))
    as (mid & newh & neww & Hmid & Hshape & Hnh & Hnw & _).
  cbn [fbresnet_augmentor AugmentorList_augment augment].
  unfold abind, lift_result, aret. rewrite Hmid.
  eexists. split; [reflexivity |].
  apply (CenterCrop_shape mid newh neww 224); try assumption; lia.
Qed.

(** X7: the training augmentors of [fbresnet_augmentor] and of
    [small_augmentor] return a 224 by 224 image for every image of at least
    five pixels, provided the colour transforms return an image of the shape
    they are given. *)
Theorem train_augmentors_shape img h w g augs :
  (forall cs im g0,
     has_shape im 224 224 ->
     exists im' g1,
       color_augment cs im g0 = Ok (im', g1) /\ has_shape im' 224 224) ->
  augs = fbresnet_augmentor true \/ augs = small_augmentor ->
  has_shape img h w -> 1 <= h -> 1 <= w -> 5 <= h * w ->
  tape_ok g ->
  exists out g',
    AugmentorList_augment interp color_augment augs img g = Ok (out, g') /\
    has_shape out 224 224.
Proof.
  intros Hcolor Haugs Hs Hh Hw Harea Hg.
  destruct (GoogleNetResize_augment_returns GoogleNetResize_default img h w g
              Hs Hh Hw ltac:(cbn; lia) params_ok_default
              (candidates_positive_default h w Harea) Hg)
    as (im1 & g1 & H1 & Hs1).
  cbn [target_shape GoogleNetResize_default] in Hs1.
  destruct Haugs as [-> | ->];
    cbn [fbresnet_augmentor small_augmentor AugmentorList_augment augment];
    unfold abind at 1; rewrite H1;
    unfold abind at 1;
    match goal with
    | |- context [color_augment ?cs im1 g1] =>
        destruct (Hcolor cs im1 g1 Hs1) as (im2 & g2 & H2 & Hs2)
    end;
    rewrite H2;
    destruct (Flip_augment_shape (1 # 2) im2 224 224 g2 Hs2)
      as (im3 & g3 & H3 & Hs3);
    unfold abind, aret; rewrite H3;
    exists im3, g3; (split; [reflexivity | exact Hs3]).
Qed.

End AugmentorLists.

(** ** The validation pipeline as a whole *)

Section PipelineAsAWhole.

Variable interp : image -> Z -> Z -> Z -> Z -> pixel.
Variable color_augment : list ColorAug -> image -> Aug image.
Variable dataset_index : string -> string -> list datapoint.
Variable imread : string -> option image.
Variable cpu_count : Z.

(** X8: [mapf] has no handler for a file that cannot be decoded: one such
    file anywhere in the list makes the whole in-order map raise. *)
Theorem unreadable_file_aborts augs ds fname cls :
  In (fname, cls) ds -> imread fname = None ->
  forall g, exists e,
    map_in_order (mapf interp color_augment imread augs) ds g = Raise e.
Proof.
  intros Hin Hread. induction ds as [| dp ds IH]; intros g; [destruct Hin |].
  cbn [map_in_order]. unfold abind at 1.
  destruct (mapf interp color_augment imread augs dp g) as [[x g1] | e] eqn:E;
    [| exists e; reflexivity].
  destruct Hin as [-> | Hin].
  - unfold mapf, abind, lift_result in E. rewrite Hread in E. discriminate.
  - destruct (IH Hin g1) as [e He]. unfold abind. rewrite He.
    exists e. reflexivity.
Qed.





(** X10: whatever a returned dataflow yields has ceil(size / batch_size)
    batches, where size is the number of source samples: the whole index
    without sharding, [N // num_splits] for a shard. *)
Theorem batch_count_of_dataflow datadir B augs parallel ns si log ds g out :
  get_val_dataflow interp color_augment dataset_index imread cpu_count
    datadir B augs parallel ns si = (log, Ok ds) ->
  1 <= B ->
  BatchData_yields dataset_index ds g out ->
  Z.of_nat (length out)
  = (size dataset_index (map_ds (batch_ds ds)) + B - 1) / B.
Proof.
  intros Hget HB (xs & (ys & g' & Hrun & Hys) & ->).
  apply get_val_dataflow_ok in Hget.
  destruct Hget as (src & l & p & _ & ->).
  cbn [batch_ds map_ds map_func strict batch_size remainder] in *.
  subst xs.
  pose proof (map_in_order_labels interp color_augment imread l _ _ _ _ Hrun)
    as Hlab.
  assert (Hlen : length ys = length (get_data dataset_index src)).
  { rewrite <- (length_map snd ys), Hlab, length_map. reflexivity. }
  destruct (BatchData_loop_shape B ys ltac:(lia) [] ltac:(cbn; lia))
    as (Hn & _ & _).
  cbn [length] in Hn. rewrite Z.add_0_l in Hn.
  unfold BatchData_get_data, size. rewrite Hn, Hlen. reflexivity.
Qed.


End PipelineAsAWhole.

(** ** The crop window of an accepted trial *)

Lemma nearest_sqrt_nonneg x : 0 <= nearest_sqrt x.
Proof.
  unfold nearest_sqrt. apply Z.div_pos; [| lia].
  pose proof (Z.sqrt_nonneg (Qfloor (4 * x))). lia.
Qed.

Lemma spec_offset_inside room g x g' :
  0 <= room -> tape_ok g ->
  spec_offset room g = Ok (x, g') ->
  0 <= x /\ x <= room /\ (0 < room -> x < room) /\ tape_ok g'.
Proof.
  intros Hroom Hg. unfold spec_offset.
  destruct (Z.eqb_spec room 0) as [-> | Hne].
  - unfold aret. intros H. inversion H; subst.
    repeat split; try lia. exact Hg.
  - destruct (rng_randint_range room g ltac:(lia) Hg) as (y & Hy & Hr).
    rewrite Hy. intros H. inversion H; subst.
    repeat split; try lia. exact (tape_ok_skipn 1 g Hg).
Qed.

Section CropWindow.

Variable interp : image -> Z -> Z -> Z -> Z -> pixel.

(** X12: what an accepted trial returns is the resize of a window that lies
    inside the image; as [randint] excludes its upper bound, a window
    narrower than the image never touches the right border, and one shorter
    than the image never touches the bottom. *)
Theorem accepted_crop_inside_image self img g out g' :
  params_ok self -> tape_ok g ->
  GoogleNetResize_trial interp self img g = Ok (Some out, g') ->
  exists x1 y1 ww hh,
    0 <= ww /\ 0 <= hh /\
    0 <= x1 /\ x1 + ww <= width img /\
    0 <= y1 /\ y1 + hh <= height img /\
    (ww < width img -> x1 + ww < width img) /\
    (hh < height img -> y1 + hh < height img) /\
    cv2_resize interp (crop img y1 (y1 + hh) x1 (x1 + ww))
               (target_shape self, target_shape self)
    = Ok out.
Proof.
  intros Hp Hg.
  destruct (raw g) as [u1 g1] eqn:E1.
  destruct (raw g1) as [u2 g2] eqn:E2.
  destruct (raw g2) as [u3 g3] eqn:E3.
  destruct (raw_bounds _ _ _ Hg E1) as (Hu1 & Hu1' & Hg1).
  destruct (raw_bounds _ _ _ Hg1 E2) as (Hu2 & Hu2' & Hg2).
  destruct (raw_bounds _ _ _ Hg2 E3) as (_ & _ & Hg3).
  rewrite (GoogleNetResize_trial_run interp self img g u1 g1 u2 g2 u3 g3
             Hp E1 E2 E3 Hu1 Hu1' Hu2 Hu2').
  set (t := spec_trial self (height img) (width img) u1 u2 u3).
  assert (Hww : 0 <= trial_ww t /\ 0 <= trial_hh t).
  { unfold t, spec_trial. cbn [trial_ww trial_hh].
    destruct (Qltb _ _); split; apply nearest_sqrt_nonneg. }
  destruct (fits (height img) (width img) t) eqn:F; [| discriminate].
  unfold fits in F. apply andb_true_iff in F. destruct F as [F1 F2].
  apply Z.leb_le in F1, F2.
  unfold crop_and_resize, abind, aret.
  destruct (spec_offset (width img - trial_ww t) g3) as [[x1 g4] | e] eqn:Ex;
    [| discriminate].
  destruct (spec_offset_inside (width img - trial_ww t) g3 x1 g4
              ltac:(lia) Hg3 Ex)
    as (Hx0 & Hx1 & Hx2 & Hg4).
  destruct (spec_offset (height img - trial_hh t) g4) as [[y1 g5] | e] eqn:Ey;
    [| discriminate].
  destruct (spec_offset_inside (height img - trial_hh t) g4 y1 g5
              ltac:(lia) Hg4 Ey)
    as (Hy0 & Hy1 & Hy2 & _).
  destruct (cv2_resize interp _ _) as [o | e] eqn:Er; cbn [lift_result];
    [| discriminate].
  intros H. inversion H; subst.
  exists x1, y1, (trial_ww t), (trial_hh t).
  repeat (split; [lia |]). exact Er.
Qed.

End CropWindow.

(** ** The reported errors *)

Lemma np_sum_bounds v : 0 <= np_sum v <= shape0 v.
Proof.
  unfold shape0. induction v as [| b v IH]; [cbn; lia |].
  change (np_sum (b :: v)) with ((if b then 1 else 0) + np_sum v).
  cbn [length]. destruct b; lia.
Qed.

Lemma np_sum_app v v' : np_sum (v ++ v') = np_sum v + np_sum v'.
Proof.
  induction v as [| b v IH]; [reflexivity |].
  change (np_sum ((b :: v) ++ v'))
    with ((if b then 1 else 0) + np_sum (v ++ v')).
  change (np_sum (b :: v)) with ((if b then 1 else 0) + np_sum v).
  rewrite IH. lia.
Qed.

Lemma totals_of_concat results :
  total_samples results = shape0 (concat (map fst results)) /\
  total_wrong1 results = np_sum (concat (map fst results)) /\
  total_wrong5 results = np_sum (concat (map snd results)).
Proof.
  unfold total_samples, total_wrong1, total_wrong5, shape0.
  induction results as [| r results (IH1 & IH2 & IH3)]; [cbn; auto |].
  cbn [map concat]. rewrite !Zsum_cons, IH1, IH2, IH3.
  rewrite length_app, !np_sum_app. unfold shape0. repeat split; lia.
Qed.

Lemma Zsum_Permutation l l' : Permutation l l' -> Zsum l = Zsum l'.
Proof.
  induction 1 as [| x l l' _ IH | x y l | l l' l'' _ IH1 _ IH2].
  - reflexivity.
  - rewrite !Zsum_cons, IH. reflexivity.
  - rewrite !Zsum_cons. lia.
  - congruence.
Qed.

Lemma eval_on_ILSVRC12_totals results :
  eval_on_ILSVRC12 results
  = [ ("Top1 Error: {}"%string,
       ratio (mkRatioCounter (total_samples results) (total_wrong1 results)));
      ("Top5 Error: {}"%string,
       ratio (mkRatioCounter (total_samples results) (total_wrong5 results))) ].
Proof.
  unfold eval_on_ILSVRC12. rewrite eval_loop_totals. reflexivity.
Qed.

Lemma ratio_le T c c' :
  0 <= T -> c <= c' ->
  (ratio (mkRatioCounter T c) <= ratio (mkRatioCounter T c'))%Q.
Proof.
  intros HT Hc. unfold ratio. cbn [tot cnt].
  destruct (Z.eqb_spec T 0) as [_ | Hne]; [apply Qle_refl |].
  unfold Qdiv. apply Qmult_le_compat_r.
  - rewrite !Qmult_1_r. rewrite <- Zle_Qle. exact Hc.
  - apply Qinv_le_0_compat. change 0%Q with (inject_Z 0).
    rewrite <- Zle_Qle. exact HT.
Qed.

Lemma total_samples_nonneg results : 0 <= total_samples results.
Proof.
  destruct (totals_of_concat results) as (-> & _ & _). unfold shape0. lia.
Qed.

(** X13: the reported errors depend only on the indicators taken together,
    not on how the samples were cut into batches. *)
Theorem eval_independent_of_batching results results' :
  concat (map fst results) = concat (map fst results') ->
  concat (map snd results) = concat (map snd results') ->
  eval_on_ILSVRC12 results = eval_on_ILSVRC12 results'.
Proof.
  intros H1 H5. rewrite !eval_on_ILSVRC12_totals.
  destruct (totals_of_concat results) as (-> & -> & ->).
  destruct (totals_of_concat results') as (-> & -> & ->).
  rewrite H1, H5. reflexivity.
Qed.

(** X14: the reported errors do not depend on the order in which the
    batches arrive. *)
Theorem eval_independent_of_order results results' :
  Permutation results results' ->
  eval_on_ILSVRC12 results = eval_on_ILSVRC12 results'.
Proof.
  intros HP. rewrite !eval_on_ILSVRC12_totals.
  unfold total_samples, total_wrong1, total_wrong5.
  rewrite (Zsum_Permutation _ _ (Permutation_map (fun r => shape0 (fst r)) HP)).
  rewrite (Zsum_Permutation _ _ (Permutation_map (fun r => np_sum (fst r)) HP)).
  rewrite (Zsum_Permutation _ _ (Permutation_map (fun r => np_sum (snd r)) HP)).
  reflexivity.
Qed.

(** X15: when the two indicator vectors of every batch have the same
    length, both reported errors lie between 0 and 1. *)
Theorem eval_errors_in_unit_interval results :
  Forall (fun r => shape0 (snd r) = shape0 (fst r)) results ->
  Forall (fun line : string * Q => (0 <= snd line)%Q /\ (snd line <= 1)%Q)
         (eval_on_ILSVRC12 results).
Proof.
  intros Hall. rewrite eval_on_ILSVRC12_totals.
  assert (H5 : shape0 (concat (map snd results))
               = shape0 (concat (map fst results))).
  { unfold shape0. induction Hall as [| r rs Hr _ IH]; [reflexivity |].
    cbn [map concat]. rewrite !length_app. unfold shape0 in Hr. lia. }
  destruct (totals_of_concat results) as (HT & H1 & H5').
  pose proof (np_sum_bounds (concat (map fst results))) as B1.
  pose proof (np_sum_bounds (concat (map snd results))) as B5.
  pose proof (total_samples_nonneg results) as HT0.
  assert (Hunit : forall c, 0 <= c <= total_samples results ->
            (0 <= ratio (mkRatioCounter (total_samples results) c))%Q /\
            (ratio (mkRatioCounter (total_samples results) c) <= 1)%Q).
  { intros c [Hc0 Hc1]. split.
    - apply Qle_trans
        with (ratio (mkRatioCounter (total_samples results) 0)).
      + unfold ratio. cbn [tot cnt]. destruct (_ =? 0); [apply Qle_refl |].
        unfold Qdiv. rewrite !Qmult_0_l. apply Qle_refl.
      + apply ratio_le; assumption.
    - apply Qle_trans
        with (ratio (mkRatioCounter (total_samples results)
                                    (total_samples results))).
      + apply ratio_le; assumption.
      + unfold ratio. cbn [tot cnt].
        destruct (Z.eqb_spec (total_samples results) 0) as [_ | Hne];
          [discriminate |].
        rewrite Qmult_1_r. unfold Qdiv. rewrite Qmult_inv_r; [apply Qle_refl |].
        intros E. apply Hne. unfold Qeq in E. cbn in E. lia. }
  constructor; [| constructor; [| constructor]]; cbn [snd]; apply Hunit; lia.
Qed.

(** ** Top-1 and top-5 indicators *)

Section IndicatorOrder.

Variable in_top_k : list Q -> Z -> Z -> bool.

Lemma prediction_incorrect_sum_le logits label :
  (forall row l, in_top_k row l 1 = true -> in_top_k row l 5 = true) ->
  np_sum (prediction_incorrect in_top_k logits label 5)
  <= np_sum (prediction_incorrect in_top_k logits label 1).
Proof.
  intros Hmono. unfold prediction_incorrect.
  induction (combine logits label) as [| [row l] rest IH]; [cbn; lia |].
  cbn [map fst snd].
  change (np_sum (?b :: ?v)) with ((if b then 1 else 0) + np_sum v).
  specialize (Hmono row l).
  destruct (in_top_k row l 1), (in_top_k row l 5); cbn [negb];
    first [discriminate (Hmono eq_refl) | lia].
Qed.

(** X16: a sample counted wrong in the top 5 is also counted wrong in the
    top 1, so over any batches of logits and labels the reported top-5
    error is at most the top-1 error; it only needs a label in the top 1
    to be in the top 5. *)
Theorem top5_error_at_most_top1 (batches : list (list (list Q) * list Z)) :
  (forall row l, in_top_k row l 1 = true -> in_top_k row l 5 = true) ->
  let results :=
    map (fun b => wrong_top1_top5 in_top_k (fst b) (snd b)) batches in
  total_wrong5 results <= total_wrong1 results /\
  exists e1 e5,
    eval_on_ILSVRC12 results
    = [("Top1 Error: {}"%string, e1); ("Top5 Error: {}"%string, e5)] /\
    (e5 <= e1)%Q.
Proof.
  intros Hmono results.
  assert (Hle : total_wrong5 results <= total_wrong1 results).
  { subst results. unfold total_wrong1, total_wrong5.
    induction batches as [| [logits label] batches IH]; [cbn; lia |].
    cbn [map fst snd wrong_top1_top5]. rewrite !Zsum_cons.
    pose proof (prediction_incorrect_sum_le logits label Hmono). lia. }
  split; [exact Hle |].
  rewrite eval_on_ILSVRC12_totals. eexists. eexists.
  split; [reflexivity |].
  apply ratio_le; [apply total_samples_nonneg | exact Hle].
Qed.

End IndicatorOrder.

Lemma rank_in_top_k_mono row l k k' :
  k <= k' -> rank_in_top_k row l k = true -> rank_in_top_k row l k' = true.
Proof.
  unfold rank_in_top_k. intros Hk H.
  apply Z.ltb_lt in H. apply Z.ltb_lt. lia.
Qed.

(** ** Input normalisation *)

(** X17: normalising a stored BGR image with [bgr=True] gives, channel for
    channel, what normalising its RGB form with [bgr=False] gives: the
    means and deviations follow the channels. *)
Theorem image_preprocess_channel_order (img : image) :
  image_preprocess true img
  = map (map rev3) (image_preprocess false (map (map swap_channels) img)).
Proof.
  unfold image_preprocess. cbn [rev3].
  rewrite !map_map. apply map_ext. intros row.
  rewrite !map_map. apply map_ext. intros p. reflexivity.
Qed.



(** ** The benchmark's random array *)

Lemma rand_uint8_range g :
  tape_ok g ->
  0 <= fst (rand_uint8 g) <= 254 /\ tape_ok (snd (rand_uint8 g)).
Proof.
  intros Hg. unfold rand_uint8.
  destruct (raw g) as [u g'] eqn:E.
  destruct (raw_bounds _ _ _ Hg E) as (H0 & H1 & Hg').
  cbn [fst snd]. split; [| exact Hg'].
  assert (Hi : 0 <= py_int (u * 255) <= 254).
  { unfold py_int. destruct u as [n d]. unfold Qle, Qlt in H0, H1.
    cbn in H0, H1 |- *.
    rewrite Z.quot_div_nonneg by lia. split.
    - apply Z.div_pos; lia.
    - assert (n * 255 / Z.pos (d * 1) < 255); [| lia].
      apply Z.div_lt_upper_bound; lia. }
  rewrite Z.mod_small by lia. exact Hi.
Qed.

Lemma rand_pixel_range g :
  tape_ok g ->
  below_255 (fst (rand_pixel g)) /\ tape_ok (snd (rand_pixel g)).
Proof.
  intros Hg. unfold rand_pixel.
  destruct (rand_uint8_range g Hg) as [H0 Hg0].
  destruct (rand_uint8 g) as [c0 g0]. cbn [fst snd] in *.
  destruct (rand_uint8_range g0 Hg0) as [H1 Hg1].
  destruct (rand_uint8 g0) as [c1 g1]. cbn [fst snd] in *.
  destruct (rand_uint8_range g1 Hg1) as [H2 Hg2].
  destruct (rand_uint8 g1) as [c2 g2]. cbn [fst snd] in *.
  split; [| exact Hg2]. unfold below_255. cbn. auto.
Qed.

Lemma rand_row_range w :
  forall g, tape_ok g ->
    Forall below_255 (fst (rand_row w g)) /\ tape_ok (snd (rand_row w g)).
Proof.
  induction w as [| w IH]; intros g Hg; [cbn; auto |].
  cbn [rand_row]. destruct (rand_pixel_range g Hg) as [Hp Hg1].
  destruct (rand_pixel g) as [p g1]. cbn [fst snd] in *.
  destruct (IH g1 Hg1) as [Hrow Hg2].
  destruct (rand_row w g1) as [row g2]. cbn [fst snd] in *.
  split; [constructor; assumption | exact Hg2].
Qed.

(** X19: the random array the benchmark resizes never holds the value 255:
    every channel of [(np.random.rand(h, w, 3) * 255).astype('uint8')] lies
    between 0 and 254. *)
Theorem benchmark_array_below_255 h w g :
  tape_ok g ->
  Forall (Forall below_255) (fst (rand_image h w g)) /\
  tape_ok (snd (rand_image h w g)).
Proof.
  revert g. induction h as [| h IH]; intros g Hg; [cbn; auto |].
  cbn [rand_image]. destruct (rand_row_range w g Hg) as [Hrow Hg1].
  destruct (rand_row w g) as [row g1]. cbn [fst snd] in *.
  destruct (IH g1 Hg1) as [Himg Hg2].
  destruct (rand_image h w g1) as [img g2]. cbn [fst snd] in *.
  split; [constructor; assumption | exact Hg2].
Qed.

Section FewFiles.

Variable interp : image -> Z -> Z -> Z -> Z -> pixel.
Variable color_augment : list ColorAug -> image -> Aug image.
Variable dataset_index : string -> string -> list datapoint.
Variable imread : string -> option image.
Variable cpu_count : Z.


End FewFiles.

(** ** Instances of the further properties *)

Lemma get_val_dataflow_bad_arguments_sample :
  get_val_dataflow flat_interp no_color sample_index sample_imread 8
    None 2 (PyList []) None (Some 3) (Some 1)
  = ([], Raise AssertionError).
Proof.
  apply get_val_dataflow_bad_arguments. left. reflexivity.
Defined.

Lemma zero_splits_divide_by_zero_sample :
  get_val_dataflow flat_interp no_color sample_index sample_imread 8
    (Some "imagenet"%string) 2 (PyList []) None (Some 0) (Some (-1))
  = ([Construct "ILSVRC12Files";
      LogInfo "Number of validation data = {}" [3]],
     Raise ZeroDivisionError).
Proof.
  apply (zero_splits_divide_by_zero flat_interp no_color sample_index
           sample_imread 8 "imagenet"%string 2 [] None (-1)).
  lia.
Defined.

Lemma shard_is_contiguous_block_10_3 :
  shard_files (zrange 10) 3 1 = [3; 4; 5].
Proof.
  rewrite (proj1 (shard_is_contiguous_block (zrange 10) 3 1
                    ltac:(lia) ltac:(lia))).
  reflexivity.
Defined.

Lemma shards_concat_is_prefix_10_3 :
  concat (map (shard_files (zrange 10) 3) (zrange 3)) = zrange 9.
Proof.
  rewrite (proj1 (shards_concat_is_prefix (zrange 10) 3 ltac:(lia))).
  reflexivity.
Defined.

Lemma shard_never_larger_negative :
  Z.of_nat (length (shard_files (zrange 10) 3 (-2))) <= 3.
Proof.
  apply (shard_never_larger (zrange 10) 3 (-2)). lia.
Defined.

Lemma val_augmentors_shape_strip :
  exists out,
    AugmentorList_augment flat_interp no_color (fbresnet_augmentor false)
                          strip_image sample_tape
    = Ok (out, sample_tape) /\
    has_shape out 224 224.
Proof.
  apply (val_augmentors_shape flat_interp no_color strip_image 1 5
           sample_tape has_shape_strip); lia.
Defined.

Lemma train_augmentors_shape_strip :
  exists out g',
    AugmentorList_augment flat_interp no_color (fbresnet_augmentor true)
                          strip_image sample_tape
    = Ok (out, g') /\
    has_shape out 224 224.
Proof.
  apply (train_augmentors_shape flat_interp no_color strip_image 1 5
           sample_tape (fbresnet_augmentor true)).
  - intros cs im g0 Him. exists im, g0. split; [reflexivity | exact Him].
  - left. reflexivity.
  - exact has_shape_strip.
  - lia.
  - lia.
  - lia.
  - exact tape_ok_sample.
Defined.

Lemma unreadable_file_aborts_sample :
  exists e,
    map_in_order (mapf flat_interp no_color broken_imread [])
                 (sample_index "imagenet" "val") []
    = Raise e.
Proof.
  apply (unreadable_file_aborts flat_interp no_color broken_imread []
           (sample_index "imagenet" "val") "b.jpg"%string 3).
  - right. left. reflexivity.
  - reflexivity.
Defined.



Lemma plain_dataflow_yields :
  BatchData_yields sample_index plain_dataflow []
    (BatchData_get_data 2 true
       [(strip_image, 7); (strip_image, 3); (strip_image, 7)]).
Proof.
  exists [(strip_image, 7); (strip_image, 3); (strip_image, 7)].
  split; [| reflexivity].
  exists [(strip_image, 7); (strip_image, 3); (strip_image, 7)], [].
  split; reflexivity.
Qed.

Lemma batch_count_of_dataflow_sample :
  Z.of_nat (length (BatchData_get_data 2 true
                      [(strip_image, 7); (strip_image, 3); (strip_image, 7)]))
  = (3 + 2 - 1) / 2.
Proof.
  apply (batch_count_of_dataflow flat_interp no_color sample_index
           sample_imread 8 (Some "imagenet"%string) 2 (PyList []) None None
           None _ plain_dataflow [] _ eq_refl ltac:(lia)
           plain_dataflow_yields).
Defined.



Lemma params_ok_small : params_ok GoogleNetResize_small.
Proof. unfold params_ok. cbn. repeat split; lra. Qed.

Lemma accepted_crop_inside_image_strip :
  exists x1 y1 ww hh,
    0 <= ww /\ 0 <= hh /\
    0 <= x1 /\ x1 + ww <= 5 /\
    0 <= y1 /\ y1 + hh <= 1 /\
    (ww < 5 -> x1 + ww < 5) /\
    (hh < 1 -> y1 + hh < 1) /\
    cv2_resize flat_interp (crop strip_image y1 (y1 + hh) x1 (x1 + ww)) (2, 2)
    = Ok [[BGR 0 0 0; BGR 0 0 0]; [BGR 0 0 0; BGR 0 0 0]].
Proof.
  apply (accepted_crop_inside_image flat_interp GoogleNetResize_small
           strip_image sample_tape
           [[BGR 0 0 0; BGR 0 0 0]; [BGR 0 0 0; BGR 0 0 0]] [1 # 2]%Q
           params_ok_small tape_ok_sample).
  vm_compute. reflexivity.
Defined.

Lemma eval_independent_of_batching_sample :
  eval_on_ILSVRC12 [([true; false], [false; false]); ([true], [true])]
  = eval_on_ILSVRC12 [([true; false; true], [false; false; true])].
Proof.
  apply eval_independent_of_batching; reflexivity.
Defined.

Lemma eval_independent_of_order_sample :
  eval_on_ILSVRC12 [([true; false], [false; false]); ([true], [true])]
  = eval_on_ILSVRC12 [([true], [true]); ([true; false], [false; false])].
Proof.
  apply eval_independent_of_order. apply perm_swap.
Defined.

Lemma eval_errors_in_unit_interval_sample :
  Forall (fun line : string * Q => (0 <= snd line)%Q /\ (snd line <= 1)%Q)
         (eval_on_ILSVRC12 [([true; false], [false; false]); ([true], [true])]).
Proof.
  apply eval_errors_in_unit_interval. repeat constructor.
Defined.

Lemma top5_error_at_most_top1_sample :
  total_wrong5
    (map (fun b => wrong_top1_top5 rank_in_top_k (fst b) (snd b))
         sample_logits)
  <= total_wrong1
       (map (fun b => wrong_top1_top5 rank_in_top_k (fst b) (snd b))
            sample_logits).
Proof.
  refine (proj1 (top5_error_at_most_top1 rank_in_top_k sample_logits _)).
  intros row l. apply rank_in_top_k_mono. lia.
Defined.



Lemma benchmark_array_below_255_sample :
  Forall (Forall below_255) (fst (rand_image 2 2 sample_tape)).
Proof.
  exact (proj1 (benchmark_array_below_255 2 2 sample_tape tape_ok_sample)).
Defined.

(** The wrong counts behind the sample logits: 2 for the top 1 and 0 for
    the top 5, over 3 samples. *)
Example sample_logits_counts :
  let results :=
    map (fun b => wrong_top1_top5 rank_in_top_k (fst b) (snd b))
        sample_logits in
  (total_wrong1 results, total_wrong5 results, total_samples results)
  = (2, 0, 3).
Proof. vm_compute. reflexivity. Qed.

(** ** An image without pixels *)

Lemma nearest_sqrt_zero x : (x == 0)%Q -> nearest_sqrt x = 0.
Proof.
  intros E. unfold nearest_sqrt.
  assert (E4 : (4 * x == 0)%Q) by (rewrite E; ring).
  rewrite (Qfloor_comp _ _ E4). reflexivity.
Qed.

Lemma py_slice_empty {A} (l : list A) a : py_slice l a (a + 0) = [].
Proof.
  unfold py_slice. rewrite Z.add_0_r, Z.sub_diag. reflexivity.
Qed.

Section EmptyImage.

Variable interp : image -> Z -> Z -> Z -> Z -> pixel.

(** X21: on an image without pixels the first trial's candidate is 0 by 0
    and is accepted, so [_augment] raises the resize error; the fallback,
    which would divide by the shortest edge, is never reached. *)
Theorem empty_image_raises self img g :
  params_ok self -> tape_ok g ->
  height img * width img = 0 ->
  GoogleNetResize_augment interp self img g = Raise cv2_error.
Proof.
  intros Hp Hg Harea.
  unfold GoogleNetResize_augment.
  change (GoogleNetResize_loop interp 10 self img g)
    with (abind (GoogleNetResize_trial interp self img)
            (fun r => match r with
                      | Some out => aret out
                      | None => GoogleNetResize_loop interp 9 self img
                      end) g).
  unfold abind at 1.
  destruct (raw g) as [u1 g1] eqn:E1.
  destruct (raw g1) as [u2 g2] eqn:E2.
  destruct (raw g2) as [u3 g3] eqn:E3.
  destruct (raw_bounds _ _ _ Hg E1) as (Hu1 & Hu1' & Hg1).
  destruct (raw_bounds _ _ _ Hg1 E2) as (Hu2 & Hu2' & Hg2).
  destruct (raw_bounds _ _ _ Hg2 E3) as (_ & _ & Hg3).
  rewrite (GoogleNetResize_trial_run interp self img g u1 g1 u2 g2 u3 g3
             Hp E1 E2 E3 Hu1 Hu1' Hu2 Hu2').
  set (t := spec_trial self (height img) (width img) u1 u2 u3).
  assert (Ht : trial_ww t = 0 /\ trial_hh t = 0).
  { unfold t, spec_trial. cbn [trial_ww trial_hh]. rewrite Harea.
    assert (Ew : forall f a : Q,
               nearest_sqrt (f * inject_Z 0 * a) = 0).
    { intros f a. apply nearest_sqrt_zero. ring. }
    assert (Eh : forall f a : Q,
               nearest_sqrt (f * inject_Z 0 / a) = 0).
    { intros f a. apply nearest_sqrt_zero. unfold Qdiv. ring. }
    rewrite Ew, Eh. destruct (Qltb _ _); split; reflexivity. }
  destruct Ht as [Hw0 Hh0].
  assert (F : fits (height img) (width img) t = true).
  { unfold fits. rewrite Hw0, Hh0.
    pose proof (height_nonneg img). pose proof (width_nonneg img).
    apply andb_true_iff. split; apply Z.leb_le; lia. }
  rewrite F. unfold crop_and_resize, abind. rewrite Hw0, Hh0.
  destruct (spec_offset_range (width img - 0) g3
              ltac:(pose proof (width_nonneg img); lia) Hg3)
    as (x1 & g4 & -> & _ & Hg4).
  destruct (spec_offset_range (height img - 0) g4
              ltac:(pose proof (height_nonneg img); lia) Hg4)
    as (y1 & g5 & -> & _ & _).
  unfold crop. rewrite py_slice_empty. cbn [map].
  rewrite cv2_resize_empty. reflexivity.
Qed.

End EmptyImage.

Lemma empty_image_raises_sample :
  GoogleNetResize_augment flat_interp GoogleNetResize_default [] sample_tape
  = Raise cv2_error.
Proof.
  apply empty_image_raises;
    [exact params_ok_default | exact tape_ok_sample | reflexivity].
Defined.
